(** * Call-recording emotion analysis: the label mapper and the call aggregator

    A shallow embedding of [emotion_agent.py] (the functions
    [translate_text_auto], [classify_emotion] and [analyze_call]) and of
    [process_batch] from [app.py], together with the properties the
    specification states about them.

    Conventions of the embedding.
    - A Python [float] is embedded twice.  In the first embedding it is
      idealised as an exact rational in canonical form ([Qc]), so that two
      equal scores are equal terms and two dictionaries with the same items
      are equal maps; rounding ([round(x, 2)]) is there the
      round-half-to-even of the exact value, and what is proved is proved
      over exact arithmetic.  In the module [Doubles] a [float] is an IEEE
      double ([PrimFloat.float]) and every operation rounds as Python does;
      it settles what depends on the rounding of the doubles.
    - A Python [dict] whose iteration order is not observed is a [gmap];
      where the order is observed (modules [OD], [Ordered] and [Doubles]) it
      is the list of its items in insertion order.  [dict[k] += v] on a
      plain [dict] raises [KeyError] on a missing key and is therefore
      fallible, while on a [defaultdict(float)] it reads [0.0].
    - A Python exception is [None] in the [option] monad.
    - The pretrained models and the audio tools are parameters of a Section,
      taken as total functions: a run in which one of them raises is outside
      the model.  The classifier is any function from a text to a list of
      (label, score) pairs, over an open vocabulary of labels. *)

From Stdlib Require Import Ascii String QArith Qcanon Qround ZArith Lia Lqa.
From Stdlib Require Floats.PrimFloat Floats.SpecFloat Floats.FloatOps.
From Stdlib Require Floats.FloatAxioms.
From stdpp Require Import gmap strings list fin_maps numbers pretty.

Local Open Scope string_scope.

(** ** Python primitives *)

Module Py.

(** [str.lower] on the ASCII range.  A label is a sequence of bytes (UTF-8);
    bytes outside [A-Z] are kept, which agrees with Python on every label
    whose lower-cased form is one of the ASCII labels of the grouping
    table. *)
Definition lower_ascii (c : ascii) : ascii :=
  let n := nat_of_ascii c in
  if (65 <=? n)%nat && (n <=? 90)%nat then ascii_of_nat (n + 32) else c.

Fixpoint lower (s : string) : string :=
  match s with
  | EmptyString => EmptyString
  | String c rest => String (lower_ascii c) (lower rest)
  end.

(** [x in [a, b, ...]] on a list of strings. *)
Definition contains (l : list string) (x : string) : bool :=
  existsb (String.eqb x) l.

(** [sep.join(parts)]: the separator goes before every part but the first. *)
Definition join (sep : string) (parts : list string) : string :=
  match parts with
  | [] => ""
  | first :: others => foldl (λ acc part, acc +:+ sep +:+ part) first others
  end.

(** [s * n] on strings. *)
Fixpoint repeat_str (s : string) (n : nat) : string :=
  match n with
  | O => ""
  | S k => s +:+ repeat_str s k
  end.

(** [x / y] on floats: [ZeroDivisionError] when the divisor is zero. *)
Definition truediv (x y : Qc) : option Qc :=
  if decide (y = 0%Qc) then None else Some (x / y)%Qc.

(** Nearest integer, ties to the even one. *)
Definition round_half_even (x : Q) : Z :=
  let n := Qfloor x in
  match Qcompare (x - inject_Z n) (1 # 2) with
  | Lt => n
  | Gt => (n + 1)%Z
  | Eq => if Z.even n then n else (n + 1)%Z
  end.

Definition pow10 (ndigits : nat) : Z := (10 ^ Z.of_nat ndigits)%Z.

(** [round(x, ndigits)] for a non-negative [ndigits]. *)
Definition round (x : Qc) (ndigits : nat) : Qc :=
  Q2Qc (inject_Z (round_half_even (x * inject_Z (pow10 ndigits)))
        / inject_Z (pow10 ndigits)).

(** [d[k] += v] on a plain [dict]: [KeyError] when [k] is missing. *)
Definition dict_iadd (k : string) (v : Qc) (d : gmap string Qc)
  : option (gmap string Qc) :=
  match d !! k with
  | Some old => Some (<[k := (old + v)%Qc]> d)
  | None => None
  end.

(** [d[k]] on a [defaultdict(float)]. *)
Definition dd_get (d : gmap string Qc) (k : string) : Qc :=
  default 0%Qc (d !! k).

(** [d[k] += v] on a [defaultdict(float)]. *)
Definition dd_iadd (k : string) (v : Qc) (d : gmap string Qc)
  : gmap string Qc :=
  <[k := (dd_get d k + v)%Qc]> d.

(** [dict.fromkeys(keys, v)]. *)
Definition fromkeys (keys : list string) (v : Qc) : gmap string Qc :=
  foldl (λ d k, <[k := v]> d) ∅ keys.

(** [sum(d.values())]. *)
Definition sum_values (d : gmap string Qc) : Qc :=
  map_fold (λ _ v acc, (acc + v)%Qc) 0%Qc d.

End Py.

(** ** emotion_agent.py *)

(** One element of the classifier's output: [{'label': ..., 'score': ...}]. *)
Record raw_item := RawItem { label : string; score : Qc }.

(** [emotion_labels] *)
Definition emotion_labels : list string :=
  ["happy"; "angry"; "frustrated"; "confused"; "sad"; "surprised";
   "neutral"; "hopeful"; "bored"].

(** [translate_text_auto]: the temporary identity translation. *)
Definition translate_text_auto (text src_lang : string) : string := text.

(** The body of the [for item in result] loop of [classify_emotion]. *)
Definition classify_item (mapped : gmap string Qc) (item : raw_item)
  : option (gmap string Qc) :=
  let label := Py.lower (label item) in
  let score := score item in
  if Py.contains ["joy"] label then Py.dict_iadd "happy" score mapped
  else if Py.contains ["anger"; "annoyance"] label then
    Py.dict_iadd "angry" score mapped
  else if Py.contains ["disgust"; "disappointment"] label then
    Py.dict_iadd "frustrated" score mapped
  else if Py.contains ["confusion"; "realization"] label then
    Py.dict_iadd "confused" score mapped
  else if Py.contains ["sadness"] label then Py.dict_iadd "sad" score mapped
  else if Py.contains ["surprise"] label then
    Py.dict_iadd "surprised" score mapped
  else if Py.contains ["neutral"] label then
    Py.dict_iadd "neutral" score mapped
  else if Py.contains ["caring"; "excitement"] label then
    Py.dict_iadd "hopeful" score mapped
  else if Py.contains ["boredom"] label then Py.dict_iadd "bored" score mapped
  else Some mapped.

(** The loop itself, from a given [mapped]. *)
Fixpoint classify_items (result : list raw_item) (mapped : gmap string Qc)
  : option (gmap string Qc) :=
  match result with
  | [] => Some mapped
  | item :: rest => mapped' ← classify_item mapped item; classify_items rest mapped'
  end.

(** [classify_emotion] after the call of the model: [mapped] starts from
    [dict.fromkeys(emotion_labels, 0.0)] and is returned after the loop. *)
Definition map_result (result : list raw_item) : option (gmap string Qc) :=
  classify_items result (Py.fromkeys emotion_labels 0%Qc).

(** One element of [result['segments']]; only [segment['text']] is read. *)
Record segment := Segment { seg_text : string }.

(** What [transcriber.transcribe] returns: [result.get("language")] may be
    missing, [result['segments']] is the list of utterances. *)
Record transcription := Transcription {
  language : option string;
  segments : list segment
}.

(** One element of [emotion_history]. *)
Record history_entry := HistoryEntry {
  text : string;
  translated : string;
  emotions : gmap string Qc
}.

(** The local variables of [analyze_call] that the loop updates. *)
Record call_state := CallState {
  emotion_totals : gmap string Qc;
  utterance_count : nat;
  emotion_history : list history_entry;
  full_transcript : list string
}.

(** The newline character. *)
Definition nl : string := String "010"%char "".

(** The integer [100] as a float. *)
Definition hundred : Qc := Q2Qc 100.

(** [for k, v in emotions.items(): emotion_totals[k] += v] *)
Definition add_emotions (emotions totals : gmap string Qc) : gmap string Qc :=
  map_fold (λ k v acc, Py.dd_iadd k v acc) totals emotions.

(** [round((v / total) * 100, 2) if total > 0 else 0.0] *)
Definition percentage (total v : Qc) : option Qc :=
  if decide (0 < total)%Qc
  then q ← Py.truediv v total; Some (Py.round (q * hundred)%Qc 2)
  else Some 0%Qc.

(** Lines 93-94 of [analyze_call]: [total] and the dictionary comprehension
    over [emotion_totals.items()]. *)
Definition final_percentages (totals : gmap string Qc)
  : option (gmap string Qc) :=
  let total := Py.sum_values totals in
  map_fold (λ k v acc, d ← acc; p ← percentage total v; Some (<[k := p]> d))
           (Some ∅) totals.

(** [emotion_totals = defaultdict(float); utterance_count = 0; ...] *)
Definition initial_state : call_state :=
  {| emotion_totals := ∅; utterance_count := 0;
     emotion_history := []; full_transcript := [] |}.

Section Agent.

(** The cleaned waveform that ffmpeg writes for an input path, the Whisper
    transcriber run on such a waveform, and the first (only) element of the
    classifier pipeline's output for one text. *)
Variable waveform : Type.
Variable ffmpeg_run : string → waveform.
Variable transcriber_transcribe : waveform → transcription.
Variable emotion_model : string → list raw_item.

(** [preprocess_audio]: stands for the path of the cleaned file. *)
Definition preprocess_audio (input_path : string) : waveform :=
  ffmpeg_run input_path.

(** [classify_emotion] *)
Definition classify_emotion (text : string) : option (gmap string Qc) :=
  map_result (emotion_model text).

(** The body of [for segment in result['segments']]. *)
Definition analyze_segment (lang : string) (st : call_state) (seg : segment)
  : option call_state :=
  let text := seg_text seg in
  let full_transcript' := (full_transcript st ++ [text])%list in
  let translated := translate_text_auto text lang in
  emotions ← classify_emotion translated;
  let totals := add_emotions emotions (emotion_totals st) in
  Some {| emotion_totals := totals;
          utterance_count := utterance_count st + 1;
          emotion_history :=
            (emotion_history st
             ++ [ {| text := text; translated := translated;
                     emotions := emotions |} ])%list;
          full_transcript := full_transcript' |}.

Fixpoint analyze_segments (lang : string) (segs : list segment)
  (st : call_state) : option call_state :=
  match segs with
  | [] => Some st
  | seg :: rest =>
      st' ← analyze_segment lang st seg; analyze_segments lang rest st'
  end.

(** [analyze_call] on an already transcribed call. *)
Definition analyze_transcription (result : transcription)
  : option (list history_entry * gmap string Qc * string) :=
  let lang := default "en" (language result) in
  st ← analyze_segments lang (segments result) initial_state;
  final ← final_percentages (emotion_totals st);
  let transcript_string := Py.join nl (full_transcript st) in
  Some (emotion_history st, final, transcript_string).

(** [analyze_call] *)
Definition analyze_call (audio_path : string)
  : option (list history_entry * gmap string Qc * string) :=
  let clean_path := preprocess_audio audio_path in
  let result := transcriber_transcribe clean_path in
  analyze_transcription result.

End Agent.

(** ** app.py: [process_batch] on analyses that return *)

(** The lists that the loop of [process_batch] appends to. *)
Record batch_state (image : Type) := BatchState {
  statuses : list string;
  bars : list image;
  lines : list image;
  transcripts : list string
}.
Arguments BatchState {image}.
Arguments statuses {image}.
Arguments bars {image}.
Arguments lines {image}.
Arguments transcripts {image}.

(** [audio_files[:10] if len(audio_files) > 10 else audio_files] *)
Definition files_to_process (audio_files : list string) : list string :=
  if (10 <? length audio_files)%nat then take 10 audio_files else audio_files.

(** The start of [notification]. *)
Definition processed_notice (n : nat) : string :=
  "✅ Successfully processed " +:+ pretty n +:+ " file(s)!".

(** [notification], with the suffix for more than 10 files. *)
Definition notification (audio_files : list string) : string :=
  let notification := processed_notice (length (files_to_process audio_files)) in
  if (10 <? length audio_files)%nat
  then notification +:+ " (Limited to first 10 files, "
         +:+ pretty (length audio_files - 10)%nat +:+ " files skipped)"
  else notification.

Section App.

(** A rendered figure, what [run_live_analysis] returns for each file
    (status, bar chart, line chart, transcript; a chart may be [None]) and
    [os.path.basename].  Here every analysis returns; the exception that
    [run_live_analysis] can raise, and that [process_batch] does not catch,
    is in [process_batch_raising] below. *)
Variable image : Type.
Variable run_live_analysis :
  string → string * option image * option image * string.
Variable basename : string → string.

(** The body of [for i, file in enumerate(files_to_process)]. *)
Definition process_file (st : batch_state image) (i : nat) (file : string)
  : batch_state image :=
  let '(status, bar_fig, line_fig, transcript) := run_live_analysis file in
  let file_name :=
    if decide (file = "") then "File " +:+ pretty (i + 1)%nat
    else basename file in
  let formatted_status :=
    ("📁 " +:+ file_name +:+ nl +:+ status +:+ nl) +:+ Py.repeat_str "=" 50 in
  let formatted_transcript :=
    (("📁 " +:+ file_name +:+ ":" +:+ nl +:+ transcript +:+ nl)
     +:+ Py.repeat_str "=" 80) +:+ nl in
  {| statuses := (statuses st ++ [formatted_status])%list;
     bars := match bar_fig with
             | Some fig => (bars st ++ [fig])%list
             | None => bars st
             end;
     lines := match line_fig with
              | Some fig => (lines st ++ [fig])%list
              | None => lines st
              end;
     transcripts := (transcripts st ++ [formatted_transcript])%list |}.

Fixpoint process_files (i : nat) (files : list string) (st : batch_state image)
  : batch_state image :=
  match files with
  | [] => st
  | file :: rest => process_files (S i) rest (process_file st i file)
  end.

(** [process_batch] when no analysis raises. *)
Definition process_batch (audio_files : list string)
  : string * list image * list image * string * string :=
  match audio_files with
  | [] =>
      ("❌ No files uploaded", [], [], "No transcriptions available.",
       "❌ Please upload audio files first.")
  | _ =>
      let st :=
        process_files 0 (files_to_process audio_files)
          {| statuses := []; bars := []; lines := []; transcripts := [] |} in
      let combined_status := Py.join nl (statuses st) in
      let combined_transcripts := Py.join nl (transcripts st) in
      (combined_status, bars st, lines st, combined_transcripts,
       notification audio_files)
  end.

End App.

(** ** Vocabulary of the specification *)

(** The label-grouping table of the specification: external label, canonical
    bucket. *)
Definition grouping_table : list (string * string) :=
  [("joy", "happy");
   ("anger", "angry"); ("annoyance", "angry");
   ("disgust", "frustrated"); ("disappointment", "frustrated");
   ("confusion", "confused"); ("realization", "confused");
   ("sadness", "sad");
   ("surprise", "surprised");
   ("neutral", "neutral");
   ("caring", "hopeful"); ("excitement", "hopeful");
   ("boredom", "bored")].

(** First entry of an association list for a key. *)
Fixpoint assoc (table : list (string * string)) (key : string)
  : option string :=
  match table with
  | [] => None
  | (k, v) :: rest => if String.eqb key k then Some v else assoc rest key
  end.

(** The bucket of a lower-cased label, if the table has one. *)
Definition bucket_of (lowered : string) : option string :=
  assoc grouping_table lowered.

(** The table sends the item's lower-cased label to bucket [b]. *)
Definition in_bucket (b : string) (item : raw_item) : Prop :=
  (Py.lower (label item), b) ∈ grouping_table.

#[global] Instance in_bucket_dec b item : Decision (in_bucket b item).
Proof. unfold in_bucket. apply _. Defined.

(** Sum of the scores of a list of items. *)
Definition sum_scores (items : list raw_item) : Qc :=
  foldr (λ item acc, (score item + acc)%Qc) 0%Qc items.

(** Sum of the scores of the items that the table sends to bucket [b]. *)
Definition bucket_sum (b : string) (result : list raw_item) : Qc :=
  sum_scores (filter (in_bucket b) result).

(** What one item adds to bucket [b]. *)
Definition contribution (b : string) (item : raw_item) : Qc :=
  match bucket_of (Py.lower (label item)) with
  | Some b' => if decide (b' = b) then score item else 0%Qc
  | None => 0%Qc
  end.

(** The emotion vector whose value at each canonical key [b] is [f b]. *)
Definition vector_of (f : string → Qc) : gmap string Qc :=
  list_to_map ((λ b, (b, f b)) <$> emotion_labels).

(** The texts one per line: a newline between consecutive texts. *)
Fixpoint newline_separated (texts : list string) : string :=
  match texts with
  | [] => ""
  | [t] => t
  | t :: rest => t +:+ nl +:+ newline_separated rest
  end.

(** The set of the 9 canonical keys. *)
Definition canonical_keys : gset string := list_to_set emotion_labels.

(** A rational score [a / b]. *)
Definition ratio (a : Z) (b : positive) : Qc := Q2Qc (a # b).

(** The emotion vector of a segment: for each canonical key, the sum of the
    scores that the classifier's output for the segment's text sends to it. *)
Definition segment_emotions (emotion_model : string → list raw_item)
  (seg : segment) : gmap string Qc :=
  vector_of (λ b, bucket_sum b (emotion_model (seg_text seg))).

(** The history entry of a segment. *)
Definition entry_of (emotion_model : string → list raw_item) (seg : segment)
  : history_entry :=
  {| text := seg_text seg; translated := seg_text seg;
     emotions := segment_emotions emotion_model seg |}.

(** The totals after adding the vectors of the segments, in order. *)
Definition totals_after (emotion_model : string → list raw_item)
  (segs : list segment) (totals : gmap string Qc) : gmap string Qc :=
  foldl (λ t seg, add_emotions (segment_emotions emotion_model seg) t)
        totals segs.


(** The value that the comprehension of [final_percentages] gives to a key
    whose total is [v]. *)
Definition final_value (total v : Qc) : Qc :=
  if decide (0 < total)%Qc then Py.round (v / total * hundred)%Qc 2
  else 0%Qc.

(** Sum of the values of a dictionary over the 9 canonical keys. *)
Definition canonical_sum (d : gmap string Qc) : Qc :=
  foldr (λ b acc, (acc + Py.dd_get d b)%Qc) 0%Qc emotion_labels.

(** [x] lies within [eps] of 100. *)
Definition near_hundred (eps x : Qc) : Prop :=
  (hundred - eps ≤ x)%Qc ∧ (x ≤ hundred + eps)%Qc.

(** The name shown for the [i]-th file of a batch. *)
Definition file_label (basename : string → string) (i : nat) (file : string)
  : string :=
  if decide (file = "") then "File " +:+ pretty (i + 1)%nat else basename file.

(** The status block and the transcript block of the [i]-th file, from what
    [run_live_analysis] returned for it. *)
Definition status_entry {image : Type}
  (run : string → string * option image * option image * string)
  (basename : string → string) (i : nat) (file : string) : string :=
  ("📁 " +:+ file_label basename i file +:+ nl +:+ (run file).1.1.1 +:+ nl)
  +:+ Py.repeat_str "=" 50.

Definition transcript_entry {image : Type}
  (run : string → string * option image * option image * string)
  (basename : string → string) (i : nat) (file : string) : string :=
  (("📁 " +:+ file_label basename i file +:+ ":" +:+ nl +:+ (run file).2 +:+ nl)
   +:+ Py.repeat_str "=" 80) +:+ nl.

(** The notice that tells the user about the files that were left out. *)
Definition skipped_notice (skipped : nat) : string :=
  " (Limited to first 10 files, " +:+ pretty skipped +:+ " files skipped)".

(** Sum of [g b] over a list of keys. *)
Definition labels_sum (g : string → Qc) (keys : list string) : Qc :=
  foldr (λ b acc, (acc + g b)%Qc) 0%Qc keys.

(** The rounded percentage of [v] counted in hundredths: the integer that
    [round(v / total * 100, 2)] divides by 100. *)
Definition scaled_round (total v : Qc) : Z :=
  Py.round_half_even (this (v / total * hundred)%Qc * inject_Z (Py.pow10 2)).

(** [round(f b / total * 100, 2)], the percentage of key [b]. *)
Definition rounded_percentage (total : Qc) (f : string → Qc) (b : string)
  : Qc :=
  Py.round (f b / total * hundred)%Qc 2.

(** The keys whose value is not zero. *)
Definition nonzero_keys (f : string → Qc) (keys : list string) : list string :=
  filter (λ b, f b ≠ 0%Qc) keys.

(** Sum of the rounded percentages of [f b], in hundredths. *)
Definition scaled_sum (total : Qc) (f : string → Qc) (keys : list string) : Z :=
  foldr (λ b acc, (acc + scaled_round total (f b))%Z) 0%Z keys.

(** ** Sample inputs *)

(** [anger: 0.3, annoyance: 0.2] *)
Definition anger_annoyance : list raw_item :=
  [RawItem "anger" (ratio 3 10); RawItem "annoyance" (ratio 2 10)].

(** [neutral-ish: 0.9] *)
Definition neutral_ish : list raw_item :=
  [RawItem "neutral-ish" (ratio 9 10)].

(** A classifier that answers [anger: 0.3, annoyance: 0.2] on every text. *)
Definition fixed_model : string → list raw_item := λ _, anger_annoyance.

(** A transcription without utterances, and one with two. *)
Definition no_segments : transcription := Transcription None [].

Definition two_segments : transcription :=
  Transcription (Some "en") [Segment "hello"; Segment "world"].

(** A transcriber that hears nothing, and one that hears two utterances,
    whatever the cleaned audio (here a [unit]) is. *)
Definition deaf_transcriber : unit → transcription := λ _, no_segments.

Definition fixed_transcriber : unit → transcription := λ _, two_segments.

(** An audio tool whose output is not inspected. *)
Definition unit_ffmpeg : string → unit := λ _, tt.

(** Eleven uploaded files. *)
Definition eleven_files : list string :=
  (λ n, "call" +:+ pretty n +:+ ".wav") <$> seq 1 11.

(** A classifier whose nine scores, one per bucket, sum to 1 and all round
    down: eight of 10003/90000 and one of 9976/90000. *)
Definition skewed_model : string → list raw_item := λ _,
  [RawItem "joy" (ratio 10003 90000); RawItem "anger" (ratio 10003 90000);
   RawItem "disgust" (ratio 10003 90000);
   RawItem "confusion" (ratio 10003 90000);
   RawItem "sadness" (ratio 10003 90000);
   RawItem "surprise" (ratio 10003 90000);
   RawItem "neutral" (ratio 10003 90000);
   RawItem "caring" (ratio 10003 90000);
   RawItem "boredom" (ratio 9976 90000)].

(** The state of [analyze_call] after the single utterance "hello", with
    [fixed_model] and with [skewed_model]. *)
Definition state_after_hello (emotion_model : string → list raw_item)
  : call_state :=
  {| emotion_totals := totals_after emotion_model [Segment "hello"] ∅;
     utterance_count := 1;
     emotion_history := [entry_of emotion_model (Segment "hello")];
     full_transcript := ["hello"] |}.

(** The end-to-end scenario of the specification: the first utterance is
    classified [joy: 0.8, neutral: 0.2], the second [sadness: 1.0]. *)
Definition scenario_model : string → list raw_item := λ text,
  if String.eqb text "first"
  then [RawItem "joy" (ratio 8 10); RawItem "neutral" (ratio 2 10)]
  else [RawItem "sadness" (ratio 1 1)].

Definition scenario : transcription :=
  Transcription None [Segment "first"; Segment "second"].

(** ** Further vocabulary *)

(** The grouping table has a bucket for the item's lower-cased label. *)
Definition recognized (item : raw_item) : Prop :=
  is_Some (bucket_of (Py.lower (label item))).

#[global] Instance recognized_dec item : Decision (recognized item).
Proof. unfold recognized. apply _. Defined.

(** What the segments add to key [k]: the sum over the segments, in order,
    of the scores that the classifier's output for the segment's text sends
    to [k]. *)
Definition segment_sum (emotion_model : string → list raw_item) (k : string)
  (segs : list segment) : Qc :=
  foldr (λ seg acc, (bucket_sum k (emotion_model (seg_text seg)) + acc)%Qc)
        0%Qc segs.

(** Two items with the same score whose labels differ by letter case only. *)
Definition same_up_to_case (item1 item2 : raw_item) : Prop :=
  Py.lower (label item1) = Py.lower (label item2)
  ∧ score item1 = score item2.

(** [ANGER: 0.3, Annoyance: 0.2], and a classifier that only knows labels
    outside the grouping table. *)
Definition shouted_anger : list raw_item :=
  [RawItem "ANGER" (ratio 3 10); RawItem "Annoyance" (ratio 2 10)].

Definition foreign_model : string → list raw_item := λ _,
  [RawItem "love" (ratio 7 10); RawItem "fear" (ratio 3 10)].

(** ** Insertion-ordered dictionaries *)

(** A Python [dict] whose iteration order is observed: the items in insertion
    order, every key once. *)
Module OD.

(** [d.get(k)], [None] when the key is missing. *)
Fixpoint get (d : list (string * Qc)) (k : string) : option Qc :=
  match d with
  | [] => None
  | (k', v) :: rest => if String.eqb k k' then Some v else get rest k
  end.

(** [d[k] = v]: the value of an existing key is replaced in place, a new key
    goes to the end. *)
Fixpoint set (k : string) (v : Qc) (d : list (string * Qc))
  : list (string * Qc) :=
  match d with
  | [] => [(k, v)]
  | (k', v') :: rest =>
      if String.eqb k k' then (k', v) :: rest else (k', v') :: set k v rest
  end.

(** [list(d.keys())] and [list(d.values())]. *)
Definition keys (d : list (string * Qc)) : list string := d.*1.

Definition values (d : list (string * Qc)) : list Qc := d.*2.

(** [dict.fromkeys(ks, v)]. *)
Definition fromkeys (ks : list string) (v : Qc) : list (string * Qc) :=
  foldl (λ d k, set k v d) [] ks.

(** [d[k] += v] on a plain [dict]: [KeyError] when [k] is missing. *)
Definition iadd (k : string) (v : Qc) (d : list (string * Qc))
  : option (list (string * Qc)) :=
  match get d k with
  | Some old => Some (set k (old + v)%Qc d)
  | None => None
  end.

(** [d[k] += v] on a [defaultdict(float)]. *)
Definition dd_iadd (k : string) (v : Qc) (d : list (string * Qc))
  : list (string * Qc) :=
  set k (default 0%Qc (get d k) + v)%Qc d.

(** [d.get(k, fallback)]. *)
Definition get_or (d : list (string * Qc)) (k : string) (fallback : Qc) : Qc :=
  default fallback (get d k).

(** [sum(d.values())]: from 0, left to right. *)
Definition sum_values (d : list (string * Qc)) : Qc :=
  foldl Qcplus 0%Qc (values d).

(** The dictionary without its order. *)
Definition to_map (d : list (string * Qc)) : gmap string Qc := list_to_map d.

End OD.

(** [emotion_agent.py] again, with the order of the keys. *)
Module Ordered.

(** The body of the [for item in result] loop of [classify_emotion]. *)
Definition classify_item (mapped : list (string * Qc)) (item : raw_item)
  : option (list (string * Qc)) :=
  let label := Py.lower (label item) in
  let score := score item in
  if Py.contains ["joy"] label then OD.iadd "happy" score mapped
  else if Py.contains ["anger"; "annoyance"] label then
    OD.iadd "angry" score mapped
  else if Py.contains ["disgust"; "disappointment"] label then
    OD.iadd "frustrated" score mapped
  else if Py.contains ["confusion"; "realization"] label then
    OD.iadd "confused" score mapped
  else if Py.contains ["sadness"] label then OD.iadd "sad" score mapped
  else if Py.contains ["surprise"] label then
    OD.iadd "surprised" score mapped
  else if Py.contains ["neutral"] label then
    OD.iadd "neutral" score mapped
  else if Py.contains ["caring"; "excitement"] label then
    OD.iadd "hopeful" score mapped
  else if Py.contains ["boredom"] label then OD.iadd "bored" score mapped
  else Some mapped.

Fixpoint classify_items (result : list raw_item)
  (mapped : list (string * Qc)) : option (list (string * Qc)) :=
  match result with
  | [] => Some mapped
  | item :: rest =>
      mapped' ← classify_item mapped item; classify_items rest mapped'
  end.

(** [classify_emotion] after the call of the model. *)
Definition map_result (result : list raw_item)
  : option (list (string * Qc)) :=
  classify_items result (OD.fromkeys emotion_labels 0%Qc).

(** One element of [emotion_history]. *)
Record history_entry := HistoryEntry {
  text : string;
  translated : string;
  emotions : list (string * Qc)
}.

(** The local variables of [analyze_call] that the loop updates. *)
Record call_state := CallState {
  emotion_totals : list (string * Qc);
  utterance_count : nat;
  emotion_history : list history_entry;
  full_transcript : list string
}.

(** [for k, v in emotions.items(): emotion_totals[k] += v] *)
Definition add_emotions (emotions totals : list (string * Qc))
  : list (string * Qc) :=
  foldl (λ acc kv, OD.dd_iadd kv.1 kv.2 acc) totals emotions.

(** Lines 93-94 of [analyze_call]: the comprehension stores the keys of
    [emotion_totals] in their order. *)
Definition final_percentages (totals : list (string * Qc))
  : option (list (string * Qc)) :=
  let total := OD.sum_values totals in
  foldl (λ acc kv, d ← acc; p ← percentage total kv.2;
                   Some (OD.set kv.1 p d))
        (Some []) totals.

Definition initial_state : call_state :=
  {| emotion_totals := []; utterance_count := 0;
     emotion_history := []; full_transcript := [] |}.

Section Agent.

Variable waveform : Type.
Variable ffmpeg_run : string → waveform.
Variable transcriber_transcribe : waveform → transcription.
Variable emotion_model : string → list raw_item.

(** [classify_emotion] *)
Definition classify_emotion (text : string) : option (list (string * Qc)) :=
  map_result (emotion_model text).

(** The body of [for segment in result['segments']]. *)
Definition analyze_segment (lang : string) (st : call_state) (seg : segment)
  : option call_state :=
  let text := seg_text seg in
  let full_transcript' := (full_transcript st ++ [text])%list in
  let translated := translate_text_auto text lang in
  emotions ← classify_emotion translated;
  let totals := add_emotions emotions (emotion_totals st) in
  Some {| emotion_totals := totals;
          utterance_count := utterance_count st + 1;
          emotion_history :=
            (emotion_history st
             ++ [ {| text := text; translated := translated;
                     emotions := emotions |} ])%list;
          full_transcript := full_transcript' |}.

Fixpoint analyze_segments (lang : string) (segs : list segment)
  (st : call_state) : option call_state :=
  match segs with
  | [] => Some st
  | seg :: rest =>
      st' ← analyze_segment lang st seg; analyze_segments lang rest st'
  end.

(** [analyze_call] on an already transcribed call. *)
Definition analyze_transcription (result : transcription)
  : option (list history_entry * list (string * Qc) * string) :=
  let lang := default "en" (language result) in
  st ← analyze_segments lang (segments result) initial_state;
  final ← final_percentages (emotion_totals st);
  let transcript_string := Py.join nl (full_transcript st) in
  Some (emotion_history st, final, transcript_string).

(** [analyze_call] *)
Definition analyze_call (audio_path : string)
  : option (list history_entry * list (string * Qc) * string) :=
  let clean_path := preprocess_audio waveform ffmpeg_run audio_path in
  let result := transcriber_transcribe clean_path in
  analyze_transcription result.

End Agent.

End Ordered.

(** The ordered dictionary whose keys are [keys], in that order, with value
    [f k] at key [k]. *)
Definition items_of (f : string → Qc) (keys : list string)
  : list (string * Qc) :=
  (λ k, (k, f k)) <$> keys.

(** The ordered history entry of a segment. *)
Definition ordered_entry_of (emotion_model : string → list raw_item)
  (seg : segment) : Ordered.history_entry :=
  {| Ordered.text := seg_text seg; Ordered.translated := seg_text seg;
     Ordered.emotions :=
       items_of (λ b, bucket_sum b (emotion_model (seg_text seg)))
                emotion_labels |}.

(** An ordered history entry without the order of its vector. *)
Definition forget_order (entry : Ordered.history_entry) : history_entry :=
  {| text := Ordered.text entry; translated := Ordered.translated entry;
     emotions := OD.to_map (Ordered.emotions entry) |}.

(** ** app.py: [run_live_analysis] *)

(** Python's list primitives that can raise. *)
Module PyList.

(** [max(l)]: [ValueError] on the empty list; the first of the largest
    elements otherwise. *)
Definition max (l : list Qc) : option Qc :=
  match l with
  | [] => None
  | x :: rest => Some (foldl (λ m y, if decide (m < y)%Qc then y else m) x rest)
  end.

(** [i % n] on non-negative integers: [ZeroDivisionError] when [n] is 0. *)
Definition modulo (i n : nat) : option nat :=
  if (n =? 0)%nat then None else Some (i mod n)%nat.

(** [l[i]] for a non-negative [i]: [IndexError] past the end. *)
Definition item {A : Type} (l : list A) (i : nat) : option A := l !! i.

(** [list(enumerate(l))]. *)
Definition enumerate {A : Type} (l : list A) : list (nat * A) :=
  zip (seq 0 (length l)) l.

End PyList.

(** What is handed to matplotlib.  For the bar chart: the labels, the widths
    and the colours of the bars and the right end of the x axis.  For the
    line chart: one line per emotion, with its label, its data and its
    colour.  Titles, value labels and styling are functions of these. *)
Inductive figure :=
| BarFigure (labels : list string) (widths : list Qc) (colors : list string)
    (xlim_right : Qc)
| LineFigure (lines : list (string * list Qc * string)).

(** The initial value of [colors]. *)
Definition palette : list string :=
  ["#6366f1"; "#8b5cf6"; "#ec4899"; "#f59e0b"; "#10b981"; "#ef4444";
   "#06b6d4"; "#84cc16"].

(** [while len(colors) < n: colors.extend(colors)], with the number of
    iterations bounded by [fuel]: [None] when the bound is reached. *)
Fixpoint extend_colors (fuel : nat) (colors : list string) (n : nat)
  : option (list string) :=
  if (length colors <? n)%nat then
    match fuel with
    | O => None
    | S fuel' => extend_colors fuel' (colors ++ colors)%list n
    end
  else Some colors.

(** [colors[i % len(colors)]] *)
Definition color_at (colors : list string) (i : nat) : option string :=
  j ← PyList.modulo i (length colors); PyList.item colors j.

(** [[colors[i % len(colors)] for i in range(n)]] *)
Definition cycle_colors (colors : list string) (n : nat)
  : option (list string) :=
  mapM (color_at colors) (seq 0 n).

(** [timing_info] *)
Definition timing_info (total_segments : nat) : string :=
  let segment_duration := 30%nat in
  let total_duration := (total_segments * segment_duration)%nat in
  "📊 Analysis completed in " +:+ pretty total_segments
  +:+ " segments over " +:+ pretty (total_duration / 60)%nat +:+ "m "
  +:+ pretty (total_duration mod 60)%nat +:+ "s".

(** [[e['emotions'].get(emotion, 0.0) for e in emotion_history]] *)
Definition values_trend (emotion_history : list Ordered.history_entry)
  (emotion : string) : list Qc :=
  (λ e, OD.get_or (Ordered.emotions e) emotion 0%Qc) <$> emotion_history.

(** The tuple returned on a failed analysis. *)
Definition analysis_failed {image : Type}
  : string * option image * option image * string :=
  ("❌ Analysis failed - Please try again with a valid audio file",
   None, None, "No transcription available.").

Section RunLiveAnalysis.

(** The tools of [analyze_call], a rendered figure with [fig_to_image], and
    [gaussian_filter1d(., sigma=1.5)]. *)
Variable waveform : Type.
Variable ffmpeg_run : string → waveform.
Variable transcriber_transcribe : waveform → transcription.
Variable emotion_model : string → list raw_item.
Variable image : Type.
Variable fig_to_image : figure → image.
Variable gaussian_filter1d : list Qc → list Qc.

(** The body of the loop that plots one line per emotion. *)
Definition trend_line (colors : list string)
  (emotion_history : list Ordered.history_entry) (i : nat) (emotion : string)
  : option (string * list Qc * string) :=
  let smoothed := gaussian_filter1d (values_trend emotion_history emotion) in
  color ← color_at colors i;
  Some (emotion, smoothed, color).

(** [run_live_analysis] from the value of [result] on: [None] is Python's
    [None]; a value of [analyze_call] is a tuple of length 3. *)
Definition render_result
  (result : option (list Ordered.history_entry * list (string * Qc) * string))
  : option (string * option image * option image * string) :=
  match result with
  | None => Some analysis_failed
  | Some (emotion_history, final_percentages, full_transcript) =>
      let total_segments := length emotion_history in
      let emotions := OD.keys final_percentages in
      let values := OD.values final_percentages in
      colors ← extend_colors (length emotions) palette (length emotions);
      bar_colors ← cycle_colors colors (length emotions);
      largest ← PyList.max values;
      let bar_fig :=
        BarFigure emotions values bar_colors (largest + Q2Qc 8)%Qc in
      colors' ← extend_colors (length emotions) palette (length emotions);
      lines ← mapM (λ ie, trend_line colors' emotion_history ie.1 ie.2)
                   (PyList.enumerate emotions);
      let line_fig := LineFigure lines in
      Some ("✅ Analysis completed successfully!" +:+ nl
              +:+ timing_info total_segments,
            Some (fig_to_image bar_fig), Some (fig_to_image line_fig),
            full_transcript)
  end.

(** [run_live_analysis]: an exception of [analyze_call] is not caught. *)
Definition run_live_analysis (audio_file : string)
  : option (string * option image * option image * string) :=
  result ← Ordered.analyze_call waveform ffmpeg_run transcriber_transcribe
             emotion_model audio_file;
  render_result (Some result).

End RunLiveAnalysis.

(** ** app.py: [process_batch] when [run_live_analysis] can raise *)

Section AppRaising.

Variable image : Type.
Variable run_live_analysis :
  string → option (string * option image * option image * string).
Variable basename : string → string.

(** The loop of [process_batch]: an exception of [run_live_analysis] ends
    it, since [process_batch] has no handler. *)
Fixpoint process_files_raising (i : nat) (files : list string)
  (st : batch_state image) : option (batch_state image) :=
  match files with
  | [] => Some st
  | file :: rest =>
      outcome ← run_live_analysis file;
      process_files_raising (S i) rest
        (process_file image (λ _, outcome) basename st i file)
  end.

(** [process_batch] *)
Definition process_batch_raising (audio_files : list string)
  : option (string * list image * list image * string * string) :=
  match audio_files with
  | [] =>
      Some ("❌ No files uploaded", [], [], "No transcriptions available.",
            "❌ Please upload audio files first.")
  | _ =>
      st ← process_files_raising 0 (files_to_process audio_files)
             {| statuses := []; bars := []; lines := []; transcripts := [] |};
      Some (Py.join nl (statuses st), bars st, lines st,
            Py.join nl (transcripts st), notification audio_files)
  end.

End AppRaising.

(** The colour of the [i]-th bar or line: the palette, cyclically. *)
Definition palette_color (i : nat) : string :=
  default "" (palette !! (i mod 8)%nat).

(** A list of colours that repeats the palette from its start. *)
Definition repeats_palette (colors : list string) : Prop :=
  colors ≠ []
  ∧ ∀ i, (i < length colors)%nat → colors !! i = palette !! (i mod 8)%nat.

(** ** Sample inputs for the charts *)

(** The cleaned audio identified by its path, and a transcriber that hears
    nothing in "silence.wav" and two utterances in any other file. *)
Definition path_ffmpeg : string → string := id.

Definition picky_transcriber : string → transcription := λ path,
  if String.eqb path "silence.wav" then no_segments else two_segments.

Definition three_files : list string := ["a.wav"; "silence.wav"; "b.wav"].

(** ** Python floats as IEEE doubles *)

(** The operations of Python on [float], on the doubles of the kernel:
    [+], [*] and [/] are [PrimFloat.add], [PrimFloat.mul] and
    [PrimFloat.div], which round to nearest, ties to even. *)
Module Float64.

(** [float(z)]: the double nearest to an integer. *)
Definition of_Z (z : Z) : PrimFloat.float :=
  FloatOps.SF2Prim
    (SpecFloat.binary_normalize FloatOps.prec FloatOps.emax z 0 false).

(** The double nearest to [a / b], for two integers that are doubles: the
    value of a literal such as [0.1], written [ratio 1 10]. *)
Definition ratio (a : Z) (b : positive) : PrimFloat.float :=
  PrimFloat.div (of_Z a) (of_Z (Z.pos b)).

(** [x > y]: false as soon as one of them is a NaN. *)
Definition gt (x y : PrimFloat.float) : bool := PrimFloat.ltb y x.

(** [x / y]: [ZeroDivisionError] when the divisor is [0.0] or [-0.0]. *)
Definition truediv (x y : PrimFloat.float) : option PrimFloat.float :=
  if PrimFloat.eqb y PrimFloat.zero then None else Some (PrimFloat.div x y).

(** The integer [n] with the sign [s], as a floating-point number of
    exponent 0. *)
Definition signed (s : bool) (n : Z) : SpecFloat.spec_float :=
  match n with
  | Z.pos p => SpecFloat.S754_finite s p 0
  | _ => SpecFloat.S754_zero s
  end.

(** [round(x, ndigits)] for a non-negative [ndigits]: a NaN, an infinity and
    a zero are returned as they are; otherwise the exact value of [x] is
    rounded to [ndigits] decimals, ties to even, and the double nearest to
    that decimal is returned, [OverflowError] when it is too large. *)
Definition round (x : PrimFloat.float) (ndigits : nat)
  : option PrimFloat.float :=
  match FloatOps.Prim2SF x with
  | SpecFloat.S754_finite s m e =>
      let scale := Py.pow10 ndigits in
      let n :=
        Py.round_half_even
          (inject_Z (Z.pos m) * Qpower 2 e * inject_Z scale) in
      let rounded :=
        FloatOps.SF2Prim
          (SpecFloat.SFdiv FloatOps.prec FloatOps.emax
             (signed s n) (signed false scale)) in
      if PrimFloat.is_infinity rounded then None else Some rounded
  | _ => Some x
  end.


(** The exact value of a finite double. *)
Definition exact (x : PrimFloat.float) : option Q :=
  match FloatOps.Prim2SF x with
  | SpecFloat.S754_zero _ => Some 0%Q
  | SpecFloat.S754_finite s m e =>
      Some ((if s then -1 else 1) * inject_Z (Z.pos m) * Qpower 2 e)%Q
  | _ => None
  end.

End Float64.

(** ** [emotion_agent.py] on doubles *)

(** [classify_emotion] and [analyze_call] once more, with the scores as
    doubles and the dictionaries in insertion order: the same statements,
    with Python's own arithmetic. *)
Module Doubles.

(** One element of the classifier's output. *)
Record raw_item := RawItem { label : string; score : PrimFloat.float }.

(** [d.get(k)], [None] when the key is missing. *)
Fixpoint get (d : list (string * PrimFloat.float)) (k : string)
  : option PrimFloat.float :=
  match d with
  | [] => None
  | (k', v) :: rest => if String.eqb k k' then Some v else get rest k
  end.

(** [d[k] = v]: the value of an existing key is replaced in place, a new key
    goes to the end. *)
Fixpoint set (k : string) (v : PrimFloat.float)
  (d : list (string * PrimFloat.float)) : list (string * PrimFloat.float) :=
  match d with
  | [] => [(k, v)]
  | (k', v') :: rest =>
      if String.eqb k k' then (k', v) :: rest else (k', v') :: set k v rest
  end.

(** [list(d.keys())] and [list(d.values())]. *)
Definition keys (d : list (string * PrimFloat.float)) : list string := d.*1.

Definition values (d : list (string * PrimFloat.float))
  : list PrimFloat.float := d.*2.

(** [dict.fromkeys(ks, v)]. *)
Definition fromkeys (ks : list string) (v : PrimFloat.float)
  : list (string * PrimFloat.float) :=
  foldl (λ d k, set k v d) [] ks.

(** [d[k] += v] on a plain [dict]: [KeyError] when [k] is missing. *)
Definition iadd (k : string) (v : PrimFloat.float)
  (d : list (string * PrimFloat.float))
  : option (list (string * PrimFloat.float)) :=
  match get d k with
  | Some old => Some (set k (PrimFloat.add old v) d)
  | None => None
  end.

(** [d[k] += v] on a [defaultdict(float)]: a missing key reads [0.0]. *)
Definition dd_iadd (k : string) (v : PrimFloat.float)
  (d : list (string * PrimFloat.float)) : list (string * PrimFloat.float) :=
  set k (PrimFloat.add (default PrimFloat.zero (get d k)) v) d.

(** The body of the [for item in result] loop of [classify_emotion]. *)
Definition classify_item (mapped : list (string * PrimFloat.float))
  (item : raw_item) : option (list (string * PrimFloat.float)) :=
  let label := Py.lower (label item) in
  let score := score item in
  if Py.contains ["joy"] label then iadd "happy" score mapped
  else if Py.contains ["anger"; "annoyance"] label then
    iadd "angry" score mapped
  else if Py.contains ["disgust"; "disappointment"] label then
    iadd "frustrated" score mapped
  else if Py.contains ["confusion"; "realization"] label then
    iadd "confused" score mapped
  else if Py.contains ["sadness"] label then iadd "sad" score mapped
  else if Py.contains ["surprise"] label then iadd "surprised" score mapped
  else if Py.contains ["neutral"] label then iadd "neutral" score mapped
  else if Py.contains ["caring"; "excitement"] label then
    iadd "hopeful" score mapped
  else if Py.contains ["boredom"] label then iadd "bored" score mapped
  else Some mapped.

Fixpoint classify_items (result : list raw_item)
  (mapped : list (string * PrimFloat.float))
  : option (list (string * PrimFloat.float)) :=
  match result with
  | [] => Some mapped
  | item :: rest =>
      mapped' ← classify_item mapped item; classify_items rest mapped'
  end.

(** [classify_emotion] after the call of the model: [mapped] starts from
    [dict.fromkeys(emotion_labels, 0.0)]. *)
Definition map_result (result : list raw_item)
  : option (list (string * PrimFloat.float)) :=
  classify_items result (fromkeys emotion_labels PrimFloat.zero).

(** One element of [emotion_history]. *)
Record history_entry := HistoryEntry {
  text : string;
  translated : string;
  emotions : list (string * PrimFloat.float)
}.

(** The local variables of [analyze_call] that the loop updates. *)
Record call_state := CallState {
  emotion_totals : list (string * PrimFloat.float);
  utterance_count : nat;
  emotion_history : list history_entry;
  full_transcript : list string
}.

(** [for k, v in emotions.items(): emotion_totals[k] += v] *)
Definition add_emotions (emotions totals : list (string * PrimFloat.float))
  : list (string * PrimFloat.float) :=
  foldl (λ acc kv, dd_iadd kv.1 kv.2 acc) totals emotions.

(** [round((v / total) * 100, 2) if total > 0 else 0.0] *)
Definition percentage (total v : PrimFloat.float) : option PrimFloat.float :=
  if Float64.gt total PrimFloat.zero
  then q ← Float64.truediv v total;
       Float64.round (PrimFloat.mul q (Float64.of_Z 100)) 2
  else Some PrimFloat.zero.

Definition initial_state : call_state :=
  {| emotion_totals := []; utterance_count := 0;
     emotion_history := []; full_transcript := [] |}.

Section Agent.

(** The tools of [analyze_call], and the builtin [sum] on a list of floats:
    the interpreter adds from 0 and from left to right ([Float64.sum]), and
    since Python 3.12 with a compensation of the rounding errors. *)
Variable waveform : Type.
Variable ffmpeg_run : string → waveform.
Variable transcriber_transcribe : waveform → transcription.
Variable emotion_model : string → list raw_item.
Variable builtin_sum : list PrimFloat.float → PrimFloat.float.

(** Lines 93-94 of [analyze_call]: [total] and the dictionary comprehension
    over [emotion_totals.items()]. *)
Definition final_percentages (totals : list (string * PrimFloat.float))
  : option (list (string * PrimFloat.float)) :=
  let total := builtin_sum (values totals) in
  foldl (λ acc kv, d ← acc; p ← percentage total kv.2; Some (set kv.1 p d))
        (Some []) totals.

(** [classify_emotion] *)
Definition classify_emotion (text : string)
  : option (list (string * PrimFloat.float)) :=
  map_result (emotion_model text).

(** The body of [for segment in result['segments']]. *)
Definition analyze_segment (lang : string) (st : call_state) (seg : segment)
  : option call_state :=
  let text := seg_text seg in
  let full_transcript' := (full_transcript st ++ [text])%list in
  let translated := translate_text_auto text lang in
  emotions ← classify_emotion translated;
  let totals := add_emotions emotions (emotion_totals st) in
  Some {| emotion_totals := totals;
          utterance_count := utterance_count st + 1;
          emotion_history :=
            (emotion_history st
             ++ [ {| text := text; translated := translated;
                     emotions := emotions |} ])%list;
          full_transcript := full_transcript' |}.

Fixpoint analyze_segments (lang : string) (segs : list segment)
  (st : call_state) : option call_state :=
  match segs with
  | [] => Some st
  | seg :: rest =>
      st' ← analyze_segment lang st seg; analyze_segments lang rest st'
  end.

(** [analyze_call] on an already transcribed call. *)
Definition analyze_transcription (result : transcription)
  : option (list history_entry * list (string * PrimFloat.float) * string) :=
  let lang := default "en" (language result) in
  st ← analyze_segments lang (segments result) initial_state;
  final ← final_percentages (emotion_totals st);
  let transcript_string := Py.join nl (full_transcript st) in
  Some (emotion_history st, final, transcript_string).

(** [analyze_call] *)
Definition analyze_call (audio_path : string)
  : option (list history_entry * list (string * PrimFloat.float) * string) :=
  let clean_path := preprocess_audio waveform ffmpeg_run audio_path in
  let result := transcriber_transcribe clean_path in
  analyze_transcription result.

End Agent.

End Doubles.



(** ** Sample inputs on doubles *)






(** A classifier with a negative score that the same bucket makes up for:
    [joy: -0.5, joy: 1.0]. *)
Definition offset_model : string → list raw_item := λ _,
  [RawItem "joy" (ratio (-1) 2); RawItem "joy" (ratio 1 1)].

(** * Properties *)

(** ** Python primitives *)

Lemma lower_lowercase_fixed :
  Py.lower "anger" = "anger" ∧ Py.lower "Annoyance" = "annoyance"
  ∧ Py.lower "NEUTRAL-ish" = "neutral-ish".
Proof. repeat split. Qed.

Lemma fromkeys_vector : Py.fromkeys emotion_labels 0%Qc = vector_of (λ _, 0%Qc).
Proof. reflexivity. Qed.

Lemma lookup_vector_of f b :
  vector_of f !! b = if decide (b ∈ emotion_labels) then Some (f b) else None.
Proof.
  unfold vector_of. induction emotion_labels as [|k ks IH]; [done|].
  rewrite fmap_cons. cbn [list_to_map foldr uncurry].
  destruct (decide (k = b)) as [->|Hne].
  - rewrite lookup_insert_eq, decide_True; [done | left].
  - rewrite lookup_insert_ne, IH by done.
    destruct (decide (b ∈ ks)) as [Hin|Hout].
    + rewrite decide_True; [done | by right].
    + rewrite decide_False; [done|]. rewrite elem_of_cons. by intros [->|?].
Qed.

Lemma vector_of_ext f g :
  (∀ b, b ∈ emotion_labels → f b = g b) → vector_of f = vector_of g.
Proof.
  intros Hfg. apply map_eq. intros b. rewrite !lookup_vector_of.
  case_decide; [by rewrite Hfg | done].
Qed.

Lemma dom_vector_of f : dom (vector_of f) = canonical_keys.
Proof.
  apply set_eq. intros b. unfold canonical_keys.
  rewrite elem_of_dom, lookup_vector_of, elem_of_list_to_set.
  case_decide; split; intros Hb; [done | eauto | by destruct Hb | done].
Qed.

(** ** The label mapper *)

Lemma bucket_of_canonical l b : bucket_of l = Some b → b ∈ emotion_labels.
Proof.
  unfold bucket_of, grouping_table, emotion_labels. cbn [assoc].
  repeat (destruct (String.eqb l _);
          [intros [= <-]; set_solver|]).
  done.
Qed.

Lemma bucket_of_table l b : bucket_of l = Some b ↔ (l, b) ∈ grouping_table.
Proof.
  unfold bucket_of, grouping_table. split.
  - cbn [assoc].
    repeat match goal with
           | |- context [String.eqb l ?k] =>
               destruct (String.eqb_spec l k) as [->|_];
               [intros [= <-]; set_solver|]
           end.
    done.
  - rewrite !elem_of_cons, elem_of_nil.
    intros H; repeat (destruct H as [[= -> ->]|H]; [reflexivity|]); done.
Qed.

Lemma table_functional l b1 b2 :
  (l, b1) ∈ grouping_table → (l, b2) ∈ grouping_table → b1 = b2.
Proof. rewrite <-!bucket_of_table. congruence. Qed.

Lemma contribution_in_bucket b item :
  contribution b item = if decide (in_bucket b item) then score item else 0%Qc.
Proof.
  unfold contribution, in_bucket.
  destruct (bucket_of (Py.lower (label item))) as [b'|] eqn:Hb.
  - destruct (decide (b' = b)) as [->|Hne].
    + rewrite decide_True; [done | by apply bucket_of_table].
    + rewrite decide_False; [done|].
      intros Hin%bucket_of_table. congruence.
  - rewrite decide_False; [done|].
    intros Hin%bucket_of_table. congruence.
Qed.

Lemma bucket_sum_nil b : bucket_sum b [] = 0%Qc.
Proof. reflexivity. Qed.

Lemma bucket_sum_cons b item result :
  bucket_sum b (item :: result)
  = (contribution b item + bucket_sum b result)%Qc.
Proof.
  unfold bucket_sum. rewrite filter_cons, contribution_in_bucket.
  case_decide; [done | by rewrite Qcplus_0_l].
Qed.

(** The if/elif chain is a lookup in the grouping table. *)
Lemma classify_item_bucket mapped item :
  classify_item mapped item
  = match bucket_of (Py.lower (label item)) with
    | Some b => Py.dict_iadd b (score item) mapped
    | None => Some mapped
    end.
Proof.
  unfold classify_item, bucket_of, grouping_table, Py.contains.
  cbn [assoc existsb]. generalize (Py.lower (label item)). intros l.
  repeat (destruct (String.eqb l _); [reflexivity|]; cbn [orb]).
  reflexivity.
Qed.

Lemma dict_iadd_vector f b s :
  b ∈ emotion_labels →
  Py.dict_iadd b s (vector_of f)
  = Some (vector_of (λ b', (f b' + (if decide (b = b') then s else 0))%Qc)).
Proof.
  intros Hb. unfold Py.dict_iadd.
  rewrite lookup_vector_of, decide_True by done. f_equal.
  apply map_eq. intros i. rewrite lookup_insert, !lookup_vector_of.
  destruct (decide (b = i)) as [->|Hne].
  - by rewrite decide_True.
  - case_decide; [by rewrite Qcplus_0_r | done].
Qed.

Lemma classify_item_vector f item :
  classify_item (vector_of f) item
  = Some (vector_of (λ b, (f b + contribution b item)%Qc)).
Proof.
  rewrite classify_item_bucket. unfold contribution.
  destruct (bucket_of (Py.lower (label item))) as [b'|] eqn:Hb.
  - apply dict_iadd_vector. by eapply bucket_of_canonical.
  - f_equal. apply vector_of_ext. intros b _. by rewrite Qcplus_0_r.
Qed.

Lemma classify_items_vector result f :
  classify_items result (vector_of f)
  = Some (vector_of (λ b, (f b + bucket_sum b result)%Qc)).
Proof.
  revert f. induction result as [|item rest IH]; intros f.
  - cbn [classify_items]. f_equal. apply vector_of_ext. intros b _.
    by rewrite bucket_sum_nil, Qcplus_0_r.
  - cbn [classify_items]. rewrite classify_item_vector.
    cbn [mbind option_bind]. rewrite IH.
    f_equal. apply vector_of_ext. intros b _.
    by rewrite bucket_sum_cons, Qcplus_assoc.
Qed.

(** Closed form of the mapper: it never raises, and every canonical key holds
    the sum of the scores that the table sends to it. *)
Lemma map_result_vector result :
  map_result result = Some (vector_of (λ b, bucket_sum b result)).
Proof.
  unfold map_result. rewrite fromkeys_vector, classify_items_vector.
  f_equal. apply vector_of_ext. intros b _. by rewrite Qcplus_0_l.
Qed.

Lemma sum_scores_nonneg items :
  Forall (λ item, (0 ≤ score item)%Qc) items → (0 ≤ sum_scores items)%Qc.
Proof.
  induction 1 as [|item rest Hitem _ IH]; cbn.
  - apply Qcle_refl.
  - by apply Qcplus_nonneg_nonneg.
Qed.

Lemma bucket_sum_nonneg b result :
  Forall (λ item, (0 ≤ score item)%Qc) result → (0 ≤ bucket_sum b result)%Qc.
Proof.
  intros Hall. apply sum_scores_nonneg.
  apply Forall_forall. intros item [_ Hin]%list_elem_of_filter.
  by eapply Forall_forall in Hall.
Qed.



Lemma Qcle_ratio_nonneg a b : (0 ≤ a)%Z → (0 ≤ ratio a b)%Qc.
Proof.
  intros Ha. unfold ratio, Qcle. cbn [this Q2Qc].
  rewrite (Qred_correct (a # b)). change (Qred 0) with 0%Q. unfold Qle. cbn. lia.
Qed.

(** C3: [classify] adds each score whose lower-cased label is in the grouping
    table to the old value of that label's bucket and leaves the vector
    unchanged on an unrecognized label, never raising; a label has one bucket
    only; so each canonical key ends with the sum of the scores sent to it.
    Raw labels [anger: 0.3, annoyance: 0.2] give [angry = 0.5], and
    [neutral-ish: 0.9] gives 0 in every bucket. *)
Theorem classify_accumulates_buckets :
  (∀ mapped item b old,
     in_bucket b item → mapped !! b = Some old →
     classify_item mapped item = Some (<[b := (old + score item)%Qc]> mapped))
  ∧ (∀ mapped item,
       (∀ b, ¬ in_bucket b item) → classify_item mapped item = Some mapped)
  ∧ (∀ l b1 b2,
       (l, b1) ∈ grouping_table → (l, b2) ∈ grouping_table → b1 = b2)
  ∧ (∀ result, ∃ mapped,
       map_result result = Some mapped
       ∧ ∀ b, b ∈ emotion_labels → mapped !! b = Some (bucket_sum b result))
  ∧ (∃ mapped, map_result anger_annoyance = Some mapped
               ∧ mapped !! "angry" = Some (ratio 5 10))
  ∧ map_result neutral_ish = Some (vector_of (λ _, 0%Qc)).
Proof.
  split; [|split; [|split; [|split; [|split]]]].
  - intros mapped item b old Hb Hold. rewrite classify_item_bucket.
    apply bucket_of_table in Hb. rewrite Hb. unfold Py.dict_iadd.
    by rewrite Hold.
  - intros mapped item Hnone. rewrite classify_item_bucket.
    destruct (bucket_of (Py.lower (label item))) as [b|] eqn:Hb; [|done].
    apply bucket_of_table in Hb. by destruct (Hnone b).
  - apply table_functional.
  - intros result. eexists. split; [apply map_result_vector|].
    intros b Hb. by rewrite lookup_vector_of, decide_True.
  - eexists. split; [apply map_result_vector|].
    rewrite lookup_vector_of, decide_True by set_solver.
    f_equal. by apply Qc_is_canon.
  - rewrite map_result_vector. f_equal.
Qed.

(** C4: on a raw classification whose scores are non-negative, [classify]
    returns a vector whose keys are exactly the 9 canonical keys, every
    value being at least 0. *)
Theorem classify_vector_shape (result : list raw_item) :
  Forall (λ item, (0 ≤ score item)%Qc) result →
  ∃ mapped, map_result result = Some mapped
            ∧ dom mapped = canonical_keys
            ∧ ∀ k v, mapped !! k = Some v → (0 ≤ v)%Qc.
Proof.
  intros Hpos. eexists. split; [apply map_result_vector|]. split.
  - apply dom_vector_of.
  - intros k v. rewrite lookup_vector_of. case_decide; [|done].
    intros [= <-]. by apply bucket_sum_nonneg.
Qed.

Lemma classify_vector_shape_witness :
  Forall (λ item, (0 ≤ score item)%Qc) anger_annoyance
  ∧ ∃ mapped, map_result anger_annoyance = Some mapped
              ∧ dom mapped = canonical_keys
              ∧ ∀ k v, mapped !! k = Some v → (0 ≤ v)%Qc.
Proof.
  assert (H : Forall (λ item, (0 ≤ score item)%Qc) anger_annoyance).
  { repeat constructor; apply Qcle_ratio_nonneg; lia. }
  split; [exact H | exact (classify_vector_shape anger_annoyance H)].
Defined.



(** ** The call aggregator *)

Lemma lookup_add_emotions emotions totals k :
  add_emotions emotions totals !! k
  = match emotions !! k with
    | Some v => Some (Py.dd_get totals k + v)%Qc
    | None => totals !! k
    end.
Proof.
  unfold add_emotions. revert k.
  apply (map_fold_weak_ind (λ acc (m : gmap string Qc), ∀ k,
    acc !! k = match m !! k with
               | Some v => Some (Py.dd_get totals k + v)%Qc
               | None => totals !! k
               end)).
  - intros k. by rewrite lookup_empty.
  - intros i x m acc Hi IH k. unfold Py.dd_iadd.
    destruct (decide (i = k)) as [->|Hne].
    + rewrite !lookup_insert_eq. unfold Py.dd_get. by rewrite IH, Hi.
    + rewrite !lookup_insert_ne by done. apply IH.
Qed.

Lemma dd_get_add_emotions emotions totals k :
  Py.dd_get (add_emotions emotions totals) k
  = (Py.dd_get totals k + Py.dd_get emotions k)%Qc.
Proof.
  unfold Py.dd_get at 1 3. rewrite lookup_add_emotions.
  destruct (emotions !! k); cbn; [done|].
  by rewrite Qcplus_0_r.
Qed.

Lemma dom_add_emotions emotions totals :
  dom (add_emotions emotions totals) = dom emotions ∪ dom totals.
Proof.
  apply set_eq. intros k.
  rewrite elem_of_union, !elem_of_dom, lookup_add_emotions.
  destruct (emotions !! k) as [v|] eqn:Hk.
  - split; [intros _; left | intros _]; eauto.
  - split; [by right | intros [[? [=]]|H]; done].
Qed.

(** Adding two vectors to the totals commutes. *)
Lemma add_emotions_comm a b totals :
  add_emotions b (add_emotions a totals)
  = add_emotions a (add_emotions b totals).
Proof.
  apply map_eq. intros k. rewrite !lookup_add_emotions.
  unfold Py.dd_get. rewrite !lookup_add_emotions.
  destruct (a !! k) as [va|], (b !! k) as [vb|]; cbn; try done.
  f_equal. rewrite <-!Qcplus_assoc. f_equal. apply Qcplus_comm.
Qed.

Section AgentProperties.

Variable emotion_model : string → list raw_item.

Lemma classify_emotion_vector text :
  classify_emotion emotion_model text
  = Some (vector_of (λ b, bucket_sum b (emotion_model text))).
Proof. apply map_result_vector. Qed.

Lemma analyze_segment_eq lang st seg :
  analyze_segment emotion_model lang st seg
  = Some {| emotion_totals :=
              add_emotions (segment_emotions emotion_model seg)
                           (emotion_totals st);
            utterance_count := utterance_count st + 1;
            emotion_history :=
              (emotion_history st ++ [entry_of emotion_model seg])%list;
            full_transcript := (full_transcript st ++ [seg_text seg])%list |}.
Proof.
  unfold analyze_segment, translate_text_auto.
  by rewrite classify_emotion_vector.
Qed.

(** The loop never raises, and its final state is the initial one extended
    segment by segment. *)
Lemma analyze_segments_eq lang segs st :
  analyze_segments emotion_model lang segs st
  = Some {| emotion_totals :=
              totals_after emotion_model segs (emotion_totals st);
            utterance_count := utterance_count st + length segs;
            emotion_history :=
              (emotion_history st ++ (entry_of emotion_model <$> segs))%list;
            full_transcript :=
              (full_transcript st ++ (seg_text <$> segs))%list |}.
Proof.
  revert st. induction segs as [|seg rest IH]; intros st.
  - cbn. rewrite !app_nil_r, Nat.add_0_r. by destruct st.
  - cbn [analyze_segments]. rewrite analyze_segment_eq.
    cbn [mbind option_bind]. rewrite IH. cbn.
    rewrite <-!(assoc_L (++)). do 2 f_equal. lia.
Qed.

Lemma totals_after_snoc segs seg totals :
  totals_after emotion_model (segs ++ [seg]) totals
  = add_emotions (segment_emotions emotion_model seg)
                 (totals_after emotion_model segs totals).
Proof. unfold totals_after. by rewrite foldl_app. Qed.

Lemma dom_totals_after segs totals :
  segs ≠ [] →
  dom (totals_after emotion_model segs totals) = canonical_keys ∪ dom totals.
Proof.
  induction segs as [|seg rest IH] using rev_ind; [done|]. intros _.
  rewrite totals_after_snoc, dom_add_emotions.
  unfold segment_emotions. rewrite dom_vector_of.
  destruct rest as [|s r]; [done|].
  rewrite IH by done. by rewrite (assoc_L (∪)), union_idemp_L.
Qed.

End AgentProperties.

(** ** Strings *)

Lemma str_app_assoc (s1 s2 s3 : string) :
  (s1 +:+ s2) +:+ s3 = s1 +:+ (s2 +:+ s3).
Proof.
  induction s1 as [|c s1 IH]; [done|].
  change (String c ((s1 +:+ s2) +:+ s3) = String c (s1 +:+ (s2 +:+ s3))).
  by rewrite IH.
Qed.

Lemma str_app_nil_r (s : string) : s +:+ "" = s.
Proof.
  induction s as [|c s IH]; [done|].
  change (String c (s +:+ "") = String c s). by rewrite IH.
Qed.

Lemma join_foldl sep first others :
  foldl (λ acc part, acc +:+ sep +:+ part) first others
  = first +:+ foldr (λ part acc, sep +:+ part +:+ acc) "" others.
Proof.
  revert first. induction others as [|p ps IH]; intros first; cbn [foldl foldr].
  - by rewrite str_app_nil_r.
  - rewrite IH. by rewrite !str_app_assoc.
Qed.

Lemma newline_separated_cons t rest :
  newline_separated (t :: rest)
  = t +:+ foldr (λ part acc, nl +:+ part +:+ acc) "" rest.
Proof.
  revert t. induction rest as [|p ps IH]; intros t.
  - cbn. by rewrite str_app_nil_r.
  - cbn [foldr]. rewrite <-IH. done.
Qed.

Lemma join_newline_separated texts :
  Py.join nl texts = newline_separated texts.
Proof.
  destruct texts as [|t rest]; [done|].
  unfold Py.join. by rewrite join_foldl, newline_separated_cons.
Qed.

(** ** Normalisation *)

Lemma percentage_eq total v : percentage total v = Some (final_value total v).
Proof.
  unfold percentage, final_value, Py.truediv.
  destruct (decide (0 < total)%Qc) as [Hpos|_]; [|done].
  destruct (decide (total = 0%Qc)) as [->|_]; [|done].
  by apply Qclt_not_eq in Hpos.
Qed.

(** The comprehension never raises: it maps [final_value] over the totals. *)
Lemma final_percentages_eq totals :
  final_percentages totals
  = Some (final_value (Py.sum_values totals) <$> totals).
Proof.
  unfold final_percentages. generalize (Py.sum_values totals). intros total.
  apply (map_fold_weak_ind (λ acc (m : gmap string Qc),
    acc = Some (final_value total <$> m))).
  - by rewrite fmap_empty.
  - intros i x m acc _ ->. cbn [mbind option_bind].
    rewrite percentage_eq. cbn [mbind option_bind].
    by rewrite fmap_insert.
Qed.


(** ** Claims on the aggregator *)

Section CallProperties.

Variable waveform : Type.
Variable ffmpeg_run : string → waveform.
Variable transcriber_transcribe : waveform → transcription.
Variable emotion_model : string → list raw_item.

(** What [analyze_call] returns, in closed form: it never raises. *)
Lemma analyze_transcription_eq result :
  analyze_transcription emotion_model result
  = Some (entry_of emotion_model <$> segments result,
          final_value
            (Py.sum_values
               (totals_after emotion_model (segments result) ∅))
            <$> totals_after emotion_model (segments result) ∅,
          newline_separated (seg_text <$> segments result)).
Proof.
  unfold analyze_transcription. rewrite analyze_segments_eq.
  cbn [mbind option_bind emotion_totals emotion_history full_transcript
       initial_state].
  rewrite final_percentages_eq. cbn [mbind option_bind app].
  by rewrite join_newline_separated.
Qed.

(** C1: a defect of the code.  The specification asks, for a transcription
    without segments, for the empty history, the empty transcript and the 9
    canonical keys at 0.0.  The code returns without raising (no division is
    evaluated) the empty history and the empty transcript, but its
    [final_percentages] is the empty dictionary: the comprehension runs over
    the keys of [emotion_totals], which has none, so that the guard
    [if total > 0 else 0.0] is never reached. *)
Theorem zero_segments_result (audio_path : string) :
  segments (transcriber_transcribe (ffmpeg_run audio_path)) = [] →
  analyze_call waveform ffmpeg_run transcriber_transcribe emotion_model
    audio_path
  = Some ([], ∅, "").
Proof.
  intros Hnone. unfold analyze_call, preprocess_audio.
  rewrite analyze_transcription_eq, Hnone. cbn [fmap list_fmap totals_after foldl].
  by rewrite fmap_empty.
Qed.

(** C8: the transcript that [analyze_call] returns is the texts of the
    utterances in input order with a newline between consecutive ones. *)
Theorem transcript_joins_texts (audio_path : string) :
  ∃ history final,
    analyze_call waveform ffmpeg_run transcriber_transcribe emotion_model
      audio_path
    = Some (history, final,
            newline_separated
              (seg_text
                 <$> segments
                       (transcriber_transcribe (ffmpeg_run audio_path)))).
Proof.
  unfold analyze_call, preprocess_audio. rewrite analyze_transcription_eq.
  eauto.
Qed.

(** C5: processing [A, B] and processing [B, A] end with the same
    [emotion_totals], while the two histories hold the same entries in
    opposite orders. *)
Theorem totals_order_independent (lang : string) (A B : segment) :
  ∃ stAB stBA,
    analyze_segments emotion_model lang [A; B] initial_state = Some stAB
    ∧ analyze_segments emotion_model lang [B; A] initial_state = Some stBA
    ∧ emotion_totals stAB = emotion_totals stBA
    ∧ emotion_history stAB
      = [entry_of emotion_model A; entry_of emotion_model B]
    ∧ emotion_history stBA
      = [entry_of emotion_model B; entry_of emotion_model A].
Proof.
  do 2 eexists. rewrite !analyze_segments_eq.
  split; [done|]. split; [done|].
  cbn [emotion_totals emotion_history initial_state totals_after foldl
       fmap list_fmap app].
  split; [apply add_emotions_comm | done].
Qed.

(** C7: when the values of every segment's vector are non-negative, the
    total accumulated for a key after one more segment is at least the total
    before it. *)
Theorem totals_monotone (lang : string) (segs : list segment) (seg : segment)
  (k : string) :
  (∀ seg' vec key v,
     seg' ∈ (segs ++ [seg])%list →
     classify_emotion emotion_model (seg_text seg') = Some vec →
     vec !! key = Some v → (0 ≤ v)%Qc) →
  ∃ st st',
    analyze_segments emotion_model lang segs initial_state = Some st
    ∧ analyze_segments emotion_model lang (segs ++ [seg]) initial_state
      = Some st'
    ∧ (Py.dd_get (emotion_totals st) k ≤ Py.dd_get (emotion_totals st') k)%Qc.
Proof.
  intros Hpos. do 2 eexists. rewrite !analyze_segments_eq.
  split; [done|]. split; [done|]. cbn [emotion_totals initial_state].
  rewrite totals_after_snoc, dd_get_add_emotions.
  set (t := Py.dd_get _ k). rewrite <-(Qcplus_0_r t) at 1.
  apply Qcplus_le_mono_l.
  unfold Py.dd_get, segment_emotions. rewrite lookup_vector_of.
  case_decide as Hk; cbn; [|apply Qcle_refl].
  apply (Hpos seg
           (vector_of (λ b, bucket_sum b (emotion_model (seg_text seg)))) k).
  - apply elem_of_app. right. left.
  - apply classify_emotion_vector.
  - by rewrite lookup_vector_of, decide_True.
Qed.

(** C10: when at least one segment is processed, [emotion_totals] and the
    [final_percentages] that [analyze_call] returns have exactly the 9
    canonical keys. *)
Theorem nonempty_call_has_canonical_keys (audio_path lang : string) :
  segments (transcriber_transcribe (ffmpeg_run audio_path)) ≠ [] →
  ∃ st history final transcript,
    analyze_segments emotion_model lang
      (segments (transcriber_transcribe (ffmpeg_run audio_path)))
      initial_state
    = Some st
    ∧ analyze_call waveform ffmpeg_run transcriber_transcribe emotion_model
        audio_path
      = Some (history, final, transcript)
    ∧ final_percentages (emotion_totals st) = Some final
    ∧ dom (emotion_totals st) = canonical_keys
    ∧ dom final = canonical_keys.
Proof.
  intros Hsegs. unfold analyze_call, preprocess_audio.
  rewrite analyze_transcription_eq, analyze_segments_eq.
  do 4 eexists. split; [done|]. split; [done|].
  cbn [emotion_totals initial_state]. rewrite final_percentages_eq.
  split; [done|]. rewrite dom_fmap_L, dom_totals_after by done.
  by rewrite dom_empty_L, (right_id_L ∅ (∪)).
Qed.

End CallProperties.

Lemma zero_segments_result_witness :
  segments (deaf_transcriber (unit_ffmpeg "call.wav")) = []
  ∧ analyze_call unit unit_ffmpeg deaf_transcriber fixed_model "call.wav"
    = Some ([], ∅, "").
Proof.
  split; [reflexivity|].
  apply (zero_segments_result unit unit_ffmpeg deaf_transcriber fixed_model
           "call.wav").
  reflexivity.
Defined.

(** The failing input of C1: with no segment the returned
    [final_percentages] has no key at all, so no canonical key is mapped to
    0.0. *)
Lemma zero_segments_counterexample :
  segments (deaf_transcriber (unit_ffmpeg "call.wav")) = []
  ∧ ¬ ∃ history final transcript,
        analyze_call unit unit_ffmpeg deaf_transcriber fixed_model "call.wav"
        = Some (history, final, transcript)
        ∧ (∀ k, k ∈ emotion_labels → final !! k = Some 0%Qc)
        ∧ history = [] ∧ transcript = "".
Proof.
  split; [reflexivity|].
  intros (history & final & transcript & Hcall & Hkeys & _).
  unfold analyze_call, preprocess_audio in Hcall.
  rewrite analyze_transcription_eq in Hcall.
  injection Hcall as _ Hfinal _. subst final.
  specialize (Hkeys "happy" ltac:(left)).
  cbn [deaf_transcriber no_segments segments totals_after foldl] in Hkeys.
  by rewrite fmap_empty, lookup_empty in Hkeys.
Qed.

Lemma offset_model_vectors text vec key v :
  classify_emotion offset_model text = Some vec →
  vec !! key = Some v → (0 ≤ v)%Qc.
Proof.
  rewrite classify_emotion_vector. intros Hvec.
  apply (inj Some) in Hvec as <-. rewrite lookup_vector_of.
  case_decide as Hk; [|done]. intros Hv. apply (inj Some) in Hv as <-.
  unfold emotion_labels in Hk.
  repeat (apply elem_of_cons in Hk as [->|Hk]; [by vm_compute|]).
  by apply elem_of_nil in Hk.
Qed.

Lemma totals_monotone_witness :
  (∀ seg' vec key v,
     seg' ∈ ([Segment "hello"] ++ [Segment "world"])%list →
     classify_emotion offset_model (seg_text seg') = Some vec →
     vec !! key = Some v → (0 ≤ v)%Qc)
  ∧ ∃ st st',
      analyze_segments offset_model "en" [Segment "hello"] initial_state
      = Some st
      ∧ analyze_segments offset_model "en"
          ([Segment "hello"] ++ [Segment "world"]) initial_state
        = Some st'
      ∧ (Py.dd_get (emotion_totals st) "happy"
         ≤ Py.dd_get (emotion_totals st') "happy")%Qc.
Proof.
  assert (H : ∀ seg' vec key v,
            seg' ∈ ([Segment "hello"] ++ [Segment "world"])%list →
            classify_emotion offset_model (seg_text seg') = Some vec →
            vec !! key = Some v → (0 ≤ v)%Qc)
    by (intros seg' vec key v _; apply offset_model_vectors).
  split; [exact H|].
  exact (totals_monotone offset_model "en" [Segment "hello"] (Segment "world")
           "happy" H).
Defined.

Lemma nonempty_call_has_canonical_keys_witness :
  segments (fixed_transcriber (unit_ffmpeg "call.wav")) ≠ []
  ∧ ∃ st history final transcript,
      analyze_segments fixed_model "en"
        (segments (fixed_transcriber (unit_ffmpeg "call.wav"))) initial_state
      = Some st
      ∧ analyze_call unit unit_ffmpeg fixed_transcriber fixed_model "call.wav"
        = Some (history, final, transcript)
      ∧ final_percentages (emotion_totals st) = Some final
      ∧ dom (emotion_totals st) = canonical_keys
      ∧ dom final = canonical_keys.
Proof.
  assert (H : segments (fixed_transcriber (unit_ffmpeg "call.wav")) ≠ [])
    by (vm_compute; discriminate).
  split; [exact H|].
  exact (nonempty_call_has_canonical_keys unit unit_ffmpeg fixed_transcriber
           fixed_model "call.wav" "en" H).
Defined.

(** ** Batch processing *)

Lemma files_to_process_take (audio_files : list string) :
  files_to_process audio_files
  = take (10 `min` length audio_files) audio_files.
Proof.
  unfold files_to_process.
  destruct (Nat.ltb_spec 10 (length audio_files)) as [Hlt|Hle].
  - by rewrite Nat.min_l by lia.
  - rewrite Nat.min_r by done. by rewrite firstn_all.
Qed.

Lemma notification_cases (audio_files : list string) :
  ((length audio_files ≤ 10)%nat →
   notification audio_files = processed_notice (length audio_files))
  ∧ ((10 < length audio_files)%nat →
     notification audio_files
     = processed_notice 10 +:+ skipped_notice (length audio_files - 10)).
Proof.
  unfold notification, files_to_process, skipped_notice.
  destruct (Nat.ltb_spec 10 (length audio_files)) as [Hlt|Hle].
  - split; [lia|]. intros _. rewrite length_take. by rewrite Nat.min_l by lia.
  - split; [done | lia].
Qed.

Section BatchProperties.

Variable image : Type.
Variable run_live_analysis :
  string → string * option image * option image * string.
Variable basename : string → string.

(** The loop appends one status block and one transcript block per file, in
    order, and the charts that are not [None]. *)
Lemma process_files_eq i files (st : batch_state image) :
  process_files image run_live_analysis basename i files st
  = {| statuses :=
         statuses st
         ++ imap (λ j, status_entry run_live_analysis basename (i + j)) files;
       bars := bars st ++ omap (λ file, (run_live_analysis file).1.1.2) files;
       lines := lines st ++ omap (λ file, (run_live_analysis file).1.2) files;
       transcripts :=
         transcripts st
         ++ imap (λ j, transcript_entry run_live_analysis basename (i + j))
                 files |}%list.
Proof.
  revert i st. induction files as [|file rest IH]; intros i st.
  - cbn. rewrite !app_nil_r. by destruct st.
  - cbn [process_files]. rewrite IH. unfold process_file.
    rewrite !imap_cons. cbn [omap list_omap].
    unfold status_entry at 2, transcript_entry at 2, file_label.
    rewrite Nat.add_0_r.
    destruct (run_live_analysis file) as [[[status bar] line] transcript].
    cbn [fst snd statuses bars lines transcripts].
    f_equal.
    + rewrite <-(assoc_L (++)). cbn [app]. do 2 f_equal.
      apply imap_ext. intros j f _. cbn. by rewrite Nat.add_succ_r.
    + destruct bar; [by rewrite <-(assoc_L (++))|done].
    + destruct line; [by rewrite <-(assoc_L (++))|done].
    + rewrite <-(assoc_L (++)). cbn [app]. do 2 f_equal.
      apply imap_ext. intros j f _. cbn. by rewrite Nat.add_succ_r.
Qed.

End BatchProperties.

(** ** Rounding and the sum of the percentages *)

Lemma round_half_even_bound (x : Q) :
  (inject_Z (Py.round_half_even x) - x <= 1 # 2)%Q
  ∧ (x - inject_Z (Py.round_half_even x) <= 1 # 2)%Q.
Proof.
  unfold Py.round_half_even.
  pose proof (Qfloor_le x) as Hlo. pose proof (Qlt_floor x) as Hhi.
  rewrite inject_Z_plus in Hhi. change (inject_Z 1) with 1%Q in Hhi.
  destruct (Qcompare_spec (x - inject_Z (Qfloor x)) (1 # 2)) as [Heq|Hlt|Hgt].
  - destruct (Z.even (Qfloor x)).
    + split; lra.
    + rewrite inject_Z_plus. change (inject_Z 1) with 1%Q. split; lra.
  - split; lra.
  - rewrite inject_Z_plus. change (inject_Z 1) with 1%Q. split; lra.
Qed.

Lemma this_plus (a b : Qc) : (this (a + b)%Qc == this a + this b)%Q.
Proof. cbn. apply Qred_correct. Qed.

Lemma this_mult (a b : Qc) : (this (a * b)%Qc == this a * this b)%Q.
Proof. cbn. apply Qred_correct. Qed.

Lemma this_div (a b : Qc) : (this (a / b)%Qc == this a / this b)%Q.
Proof.
  unfold Qcdiv. rewrite this_mult. unfold Qdiv. cbn. by rewrite Qred_correct.
Qed.

Lemma round_scaled total v :
  Py.round (v / total * hundred)%Qc 2
  = Q2Qc (inject_Z (scaled_round total v) / inject_Z (Py.pow10 2)).
Proof. reflexivity. Qed.

Lemma scaled_round_zero total : scaled_round total 0%Qc = 0%Z.
Proof.
  unfold scaled_round, Qcdiv. by rewrite !Qcmult_0_l.
Qed.

Section RoundedSums.

Variable f : string → Qc.
Variable total : Qc.
Hypothesis total_pos : (0 < total)%Qc.

(** The sum of the rounded percentages is a whole number of hundredths. *)
Lemma rounded_sum_scaled keys :
  (this (labels_sum (rounded_percentage total f) keys)
   == inject_Z (scaled_sum total f keys) / 100)%Q.
Proof.
  induction keys as [|b keys IH]; [reflexivity|].
  cbn [labels_sum scaled_sum foldr].
  fold (labels_sum (rounded_percentage total f) keys).
  fold (scaled_sum total f keys).
  unfold rounded_percentage at 2.
  rewrite this_plus, IH, round_scaled, inject_Z_plus.
  cbn [this Q2Qc]. rewrite Qred_correct.
  change (inject_Z (Py.pow10 2)) with 100%Q. field.
Qed.

(** Each rounding moves a non-zero percentage by at most half a hundredth,
    and leaves a zero percentage alone. *)
Lemma scaled_sum_error keys :
  (inject_Z (scaled_sum total f keys)
   - this (labels_sum f keys) / this total * 10000
   <= inject_Z (Z.of_nat (length (nonzero_keys f keys))) * (1 # 2))%Q
  ∧ (this (labels_sum f keys) / this total * 10000
     - inject_Z (scaled_sum total f keys)
     <= inject_Z (Z.of_nat (length (nonzero_keys f keys))) * (1 # 2))%Q.
Proof.
  assert (Hpos : (0 < this total)%Q) by exact total_pos.
  induction keys as [|b keys [IH1 IH2]].
  - cbn [scaled_sum labels_sum foldr]. unfold nonzero_keys.
    rewrite filter_nil. cbn [length Z.of_nat].
    change (this 0%Qc) with 0%Q. change (inject_Z 0) with 0%Q.
    split; unfold Qdiv; rewrite !Qmult_0_l; lra.
  - cbn [scaled_sum labels_sum foldr].
    fold (labels_sum f keys). fold (scaled_sum total f keys).
    unfold nonzero_keys in *. rewrite filter_cons.
    destruct (decide (f b ≠ 0%Qc)) as [Hnz|Hz].
    + cbn [length].
      rewrite Nat2Z.inj_succ, <-Z.add_1_r, !inject_Z_plus, this_plus.
      change (inject_Z 1) with 1%Q.
      destruct (round_half_even_bound
                  (this (f b / total * hundred)%Qc * inject_Z (Py.pow10 2)))
        as [E1 E2].
      fold (scaled_round total (f b)) in E1, E2.
      rewrite this_mult, this_div in E1, E2.
      change (this hundred) with 100%Q in E1, E2.
      change (inject_Z (Py.pow10 2)) with 100%Q in E1, E2.
      assert (Hsplit : ((this (labels_sum f keys) + this (f b))
                          / this total * 10000
                        == this (labels_sum f keys) / this total * 10000
                           + this (f b) / this total * 100 * 100)%Q)
        by (field; lra).
      rewrite Hsplit.
      set (x := (this (f b) / this total * 100 * 100)%Q) in *.
      set (s := (this (labels_sum f keys) / this total * 10000)%Q) in *.
      clearbody x s. clear Hsplit. revert IH1 IH2 E1 E2.
      generalize (inject_Z (scaled_sum total f keys))
                 (inject_Z (scaled_round total (f b)))
                 (inject_Z
                    (Z.of_nat (length (filter (λ b, f b ≠ 0%Qc) keys)))).
      intros n e k IH1 IH2 E1 E2. split; lra.
    + apply dec_stable in Hz. rewrite Hz, scaled_round_zero.
      by rewrite Qcplus_0_r, Z.add_0_r.
Qed.

(** When the values sum to [total] and at most [2 * k + 1] of them are not
    zero, the rounded percentages sum, in hundredths, to 10000 up to [k]. *)
Lemma scaled_sum_near (k : Z) :
  (Z.of_nat (length (nonzero_keys f emotion_labels)) ≤ 2 * k + 1)%Z →
  labels_sum f emotion_labels = total →
  (10000 - k ≤ scaled_sum total f emotion_labels ≤ 10000 + k)%Z.
Proof.
  intros Hcount Hsum. assert (Hpos : (0 < this total)%Q) by exact total_pos.
  destruct (scaled_sum_error emotion_labels) as [E1 E2].
  rewrite Hsum in E1, E2.
  assert (Hone : (this total / this total * 10000 == 10000)%Q)
    by (field; lra).
  rewrite Hone in E1, E2.
  revert Hcount E1 E2.
  generalize (Z.of_nat (length (nonzero_keys f emotion_labels)))
             (scaled_sum total f emotion_labels).
  intros c N Hcount.
  unfold Qle, Qminus, Qplus, Qmult, Qopp, inject_Z. cbn. lia.
Qed.



(** When at most 5 of the 9 values are not zero, up to 2 hundredths. *)
Lemma rounded_sum_near_hundred_sparse :
  (length (nonzero_keys f emotion_labels) ≤ 5)%nat →
  labels_sum f emotion_labels = total →
  near_hundred (ratio 2 100)
    (labels_sum (rounded_percentage total f) emotion_labels).
Proof.
  intros Hcount Hsum.
  assert (HN : (10000 - 2 ≤ scaled_sum total f emotion_labels ≤ 10000 + 2)%Z)
    by (apply scaled_sum_near; [lia | done]).
  unfold near_hundred, Qcle. rewrite (rounded_sum_scaled emotion_labels).
  change (this (hundred - ratio 2 100)%Qc) with (4999 # 50)%Q.
  change (this (hundred + ratio 2 100)%Qc) with (5001 # 50)%Q.
  revert HN. generalize (scaled_sum total f emotion_labels). intros N HN.
  unfold Qle, Qdiv, Qmult, Qinv, inject_Z. cbn. lia.
Qed.

End RoundedSums.

Lemma emotion_labels_NoDup : NoDup emotion_labels.
Proof. apply (bool_decide_unpack _). by vm_compute. Qed.

Lemma sum_values_vector f :
  Py.sum_values (vector_of f) = labels_sum f emotion_labels.
Proof.
  unfold Py.sum_values, vector_of. rewrite map_fold_foldr.
  assert (Hperm :
    map_to_list (list_to_map ((λ b, (b, f b)) <$> emotion_labels)
                 : gmap string Qc)
    ≡ₚ (λ b, (b, f b)) <$> emotion_labels).
  { apply map_to_list_to_map. exact emotion_labels_NoDup. }
  etrans.
  - apply (foldr_permutation_proper (=)
             (uncurry (λ (_ : string) (v acc : Qc), (acc + v)%Qc)) 0%Qc);
      [|exact Hperm].
    intros [k1 v1] [k2 v2] acc. cbn.
    rewrite <-!Qcplus_assoc. f_equal. apply Qcplus_comm.
  - unfold labels_sum. by rewrite foldr_fmap.
Qed.

Lemma dd_get_vector_of f b :
  b ∈ emotion_labels → Py.dd_get (vector_of f) b = f b.
Proof.
  intros Hb. unfold Py.dd_get. by rewrite lookup_vector_of, decide_True.
Qed.

Lemma canonical_sum_vector f :
  canonical_sum (vector_of f) = labels_sum f emotion_labels.
Proof.
  unfold canonical_sum, labels_sum.
  assert (Hall : ∀ b, b ∈ emotion_labels → b ∈ emotion_labels) by done.
  revert Hall. generalize emotion_labels at 1 3 4. intros keys Hall.
  induction keys as [|b keys IH]; [done|]. cbn [foldr].
  rewrite IH, dd_get_vector_of; [done| |].
  - apply Hall. left.
  - intros b' Hb'. apply Hall. by right.
Qed.

Lemma map_is_vector (m : gmap string Qc) :
  dom m = canonical_keys → m = vector_of (Py.dd_get m).
Proof.
  intros Hdom. apply map_eq. intros b. rewrite lookup_vector_of.
  unfold Py.dd_get. destruct (m !! b) as [v|] eqn:Hb.
  - rewrite decide_True; [done|].
    assert (Hin : b ∈ dom m) by (apply elem_of_dom; eauto).
    rewrite Hdom in Hin. by apply elem_of_list_to_set in Hin.
  - rewrite decide_False; [done|]. intros Hin.
    assert (Hin' : b ∈ dom m)
      by (rewrite Hdom; by apply elem_of_list_to_set).
    apply elem_of_dom in Hin' as [v Hv]. congruence.
Qed.

Lemma fmap_vector_of (g : Qc → Qc) f :
  g <$> vector_of f = vector_of (λ b, g (f b)).
Proof.
  apply map_eq. intros b. rewrite lookup_fmap, !lookup_vector_of.
  by case_decide.
Qed.

Lemma sum_values_empty : Py.sum_values ∅ = 0%Qc.
Proof. unfold Py.sum_values. apply map_fold_empty. Qed.

Section PercentageProperties.

Variable emotion_model : string → list raw_item.

(** With a positive grand total, [final_percentages] is the vector of the
    rounded percentages of the 9 totals, which sum to the grand total. *)
Lemma final_percentages_vector (segs : list segment) :
  let totals := totals_after emotion_model segs ∅ in
  let total := Py.sum_values totals in
  (0 < total)%Qc →
  final_percentages totals
  = Some (vector_of (rounded_percentage total (Py.dd_get totals)))
  ∧ labels_sum (Py.dd_get totals) emotion_labels = total.
Proof.
  intros m total Hpos.
  assert (Hdom : dom m = canonical_keys).
  { destruct segs as [|seg rest].
    - exfalso. revert Hpos. unfold total, m. cbn [totals_after foldl].
      rewrite sum_values_empty. intros Hlt. by apply Qclt_not_eq in Hlt.
    - unfold m. rewrite dom_totals_after by done.
      by rewrite dom_empty_L, (right_id_L ∅ (∪)). }
  pose proof (map_is_vector m Hdom) as Hvec.
  assert (Hsum : labels_sum (Py.dd_get m) emotion_labels = total)
    by (unfold total; by rewrite <-sum_values_vector, <-Hvec).
  split; [|done]. rewrite final_percentages_eq. fold total. f_equal.
  rewrite Hvec at 1. rewrite fmap_vector_of.
  apply vector_of_ext. intros b _. unfold final_value, rounded_percentage.
  by rewrite decide_True.
Qed.


(** When at most 5 of the 9 totals are not zero, as with a classifier that
    has at most 5 labels of the grouping table, the sum is within 0.02. *)
Lemma percentages_sum_sparse (lang : string) (segs : list segment)
  (st : call_state) :
  analyze_segments emotion_model lang segs initial_state = Some st →
  (0 < Py.sum_values (emotion_totals st))%Qc →
  (length (nonzero_keys (Py.dd_get (emotion_totals st)) emotion_labels) ≤ 5)%nat →
  ∃ final,
    final_percentages (emotion_totals st) = Some final
    ∧ near_hundred (ratio 2 100) (canonical_sum final).
Proof.
  rewrite analyze_segments_eq. intros [= <-].
  cbn [emotion_totals initial_state]. intros Hpos Hcount.
  destruct (final_percentages_vector segs Hpos) as [Hfinal Hsum].
  eexists. split; [exact Hfinal|].
  rewrite canonical_sum_vector.
  by apply rounded_sum_near_hundred_sparse.
Qed.

End PercentageProperties.

(** The bound 0.02 of the specification fails over exact arithmetic too:
    with [skewed_model] the nine percentages are eight times 11.11 and once
    11.08, which sum to 99.96. *)
Lemma exact_percentages_sum_99_96 :
  analyze_segments skewed_model "en" [Segment "hello"] initial_state
  = Some (state_after_hello skewed_model)
  ∧ (0 < Py.sum_values (emotion_totals (state_after_hello skewed_model)))%Qc
  ∧ ∃ final,
      final_percentages (emotion_totals (state_after_hello skewed_model))
      = Some final
      ∧ final !! "happy" = Some (ratio 1111 100)
      ∧ final !! "bored" = Some (ratio 1108 100)
      ∧ canonical_sum final = ratio 9996 100
      ∧ ¬ near_hundred (ratio 2 100) (canonical_sum final).
Proof.
  split; [by vm_compute|]. split; [by vm_compute|].
  eexists. split; [by vm_compute|].
  split; [by vm_compute|]. split; [by vm_compute|].
  assert (Hsum : ∀ x, x = ratio 9996 100 → ¬ near_hundred (ratio 2 100) x).
  { intros x -> [Hlo _]. revert Hlo. by vm_compute. }
  split; [|apply Hsum]; apply Qc_is_canon; by vm_compute.
Qed.

(** ** The end-to-end scenario of the specification *)

Example scenario_percentages :
  ∃ history final,
    analyze_transcription scenario_model scenario
    = Some (history, final, "first" +:+ nl +:+ "second")
    ∧ text <$> history = ["first"; "second"]
    ∧ this <$> final
      = list_to_map
          [("happy", 40%Q); ("neutral", 10%Q); ("sad", 50%Q); ("angry", 0%Q);
           ("frustrated", 0%Q); ("confused", 0%Q); ("surprised", 0%Q);
           ("hopeful", 0%Q); ("bored", 0%Q)].
Proof.
  do 2 eexists. split; [by vm_compute|]. split; by vm_compute.
Qed.

(** * Further properties of the code *)

(** ** The label mapper *)

Lemma labels_sum_zero keys : labels_sum (λ _, 0%Qc) keys = 0%Qc.
Proof.
  unfold labels_sum. induction keys as [|b keys IH]; [done|].
  cbn [foldr]. by rewrite IH, Qcplus_0_r.
Qed.

Lemma classify_item_case mapped item1 item2 :
  same_up_to_case item1 item2 →
  classify_item mapped item1 = classify_item mapped item2.
Proof. intros [Hl Hs]. by rewrite !classify_item_bucket, Hl, Hs. Qed.

(** X2: the mapper ignores the letter case of the labels: two raw
    classifications whose items agree, position by position, on the score
    and on the lower-cased label give the same vector. *)
Theorem mapper_ignores_case (result1 result2 : list raw_item) :
  Forall2 same_up_to_case result1 result2 →
  map_result result1 = map_result result2.
Proof.
  intros Hcase. unfold map_result.
  generalize (Py.fromkeys emotion_labels 0%Qc).
  induction Hcase as [|item1 item2 rest1 rest2 Hitem _ IH]; intros mapped.
  - done.
  - cbn [classify_items]. rewrite (classify_item_case _ _ _ Hitem).
    destruct (classify_item mapped item2) as [mapped'|]; [apply IH | done].
Qed.

Lemma mapper_ignores_case_witness :
  Forall2 same_up_to_case shouted_anger anger_annoyance
  ∧ map_result shouted_anger = map_result anger_annoyance.
Proof.
  assert (H : Forall2 same_up_to_case shouted_anger anger_annoyance)
    by (repeat constructor).
  split; [exact H | exact (mapper_ignores_case _ _ H)].
Defined.

(** ** The call aggregator *)

Lemma filter_none {A} (P : A → Prop) `{∀ x, Decision (P x)} (l : list A) :
  Forall (λ x, ¬ P x) l → filter P l = [].
Proof.
  induction 1 as [|x l Hx _ IH]; [done|]. by rewrite filter_cons_False.
Qed.

Lemma bucket_sum_noncanonical k result :
  k ∉ emotion_labels → bucket_sum k result = 0%Qc.
Proof.
  intros Hk. unfold bucket_sum. rewrite filter_none; [done|].
  apply Forall_forall. intros item _ Hin. apply Hk.
  apply bucket_of_table in Hin. by eapply bucket_of_canonical.
Qed.

Lemma bucket_sum_unrecognized k result :
  Forall (λ item, ¬ recognized item) result → bucket_sum k result = 0%Qc.
Proof.
  intros Hall. unfold bucket_sum. rewrite filter_none; [done|].
  apply Forall_forall. intros item Hitem Hin.
  eapply Forall_forall in Hall; [|done]. apply Hall.
  apply bucket_of_table in Hin. unfold recognized. rewrite Hin. eauto.
Qed.

Section AggregatorProperties.

Variable waveform : Type.
Variable ffmpeg_run : string → waveform.
Variable transcriber_transcribe : waveform → transcription.
Variable emotion_model : string → list raw_item.

Lemma dd_get_segment_emotions seg k :
  Py.dd_get (segment_emotions emotion_model seg) k
  = bucket_sum k (emotion_model (seg_text seg)).
Proof.
  unfold segment_emotions, Py.dd_get. rewrite lookup_vector_of.
  case_decide; [done|]. cbn. by rewrite bucket_sum_noncanonical.
Qed.

Lemma dd_get_totals_after segs totals k :
  Py.dd_get (totals_after emotion_model segs totals) k
  = (Py.dd_get totals k + segment_sum emotion_model k segs)%Qc.
Proof.
  revert totals. induction segs as [|seg rest IH]; intros totals.
  - cbn. by rewrite Qcplus_0_r.
  - unfold totals_after. cbn [foldl segment_sum foldr].
    fold (totals_after emotion_model rest
            (add_emotions (segment_emotions emotion_model seg) totals)).
    fold (segment_sum emotion_model k rest).
    rewrite IH, dd_get_add_emotions, dd_get_segment_emotions.
    by rewrite Qcplus_assoc.
Qed.

Lemma dom_totals_after_canonical segs :
  dom (totals_after emotion_model segs ∅) ⊆ canonical_keys.
Proof.
  destruct segs as [|seg rest]; [set_solver|].
  rewrite dom_totals_after by done.
  by rewrite dom_empty_L, (right_id_L ∅ (∪)).
Qed.

(** X3: after the loop of [analyze_call], [emotion_totals[k]] is the sum
    over the segments of the scores that the classifier's output for the
    segment's text sends to [k], and no key outside the 9 canonical ones is
    ever stored. *)
Theorem totals_are_segment_sums (lang : string) (segs : list segment) :
  ∃ st,
    analyze_segments emotion_model lang segs initial_state = Some st
    ∧ (∀ k, Py.dd_get (emotion_totals st) k
            = segment_sum emotion_model k segs)
    ∧ dom (emotion_totals st) ⊆ canonical_keys.
Proof.
  eexists. split; [apply analyze_segments_eq|].
  cbn [emotion_totals initial_state]. split.
  - intros k. rewrite dd_get_totals_after. unfold Py.dd_get.
    rewrite lookup_empty. cbn. by rewrite Qcplus_0_l.
  - apply dom_totals_after_canonical.
Qed.

(** X4: the history that [analyze_call] returns has one entry per segment,
    in order; the entry of a segment holds its text, the same text as
    [translated] (the translation is the identity), and the vector that
    [classify_emotion] returns for that text. *)
Theorem history_follows_segments (audio_path : string) :
  let segs := segments (transcriber_transcribe (ffmpeg_run audio_path)) in
  ∃ history final transcript,
    analyze_call waveform ffmpeg_run transcriber_transcribe emotion_model
      audio_path
    = Some (history, final, transcript)
    ∧ length history = length segs
    ∧ ∀ i seg, segs !! i = Some seg →
        ∃ entry, history !! i = Some entry
                 ∧ text entry = seg_text seg
                 ∧ translated entry = seg_text seg
                 ∧ classify_emotion emotion_model (seg_text seg)
                   = Some (emotions entry).
Proof.
  intros segs. unfold analyze_call, preprocess_audio.
  rewrite analyze_transcription_eq. fold segs.
  do 3 eexists. split; [done|]. split; [by rewrite length_fmap|].
  intros i seg Hseg. exists (entry_of emotion_model seg).
  rewrite list_lookup_fmap, Hseg. split; [done|]. split; [done|].
  split; [done|]. apply classify_emotion_vector.
Qed.

Lemma segment_sum_unrecognized k segs :
  (∀ seg, seg ∈ segs →
     Forall (λ item, ¬ recognized item) (emotion_model (seg_text seg))) →
  segment_sum emotion_model k segs = 0%Qc.
Proof.
  induction segs as [|seg rest IH]; intros Hall; [done|].
  cbn [segment_sum foldr]. fold (segment_sum emotion_model k rest).
  rewrite IH, bucket_sum_unrecognized, ?Qcplus_0_l; [done| |].
  - apply Hall. left.
  - intros seg' Hseg'. apply Hall. by right.
Qed.

Lemma totals_after_vector segs :
  segs ≠ [] →
  totals_after emotion_model segs ∅
  = vector_of (λ k, segment_sum emotion_model k segs).
Proof.
  intros Hsegs.
  rewrite (map_is_vector (totals_after emotion_model segs ∅)) at 1.
  - apply vector_of_ext. intros k _. rewrite dd_get_totals_after.
    unfold Py.dd_get. rewrite lookup_empty. cbn. by rewrite Qcplus_0_l.
  - rewrite dom_totals_after by done.
    by rewrite dom_empty_L, (right_id_L ∅ (∪)).
Qed.

(** X5: when at least one segment is transcribed and the grouping table
    knows none of the labels that the classifier returns for any of them,
    the grand total is 0 and [analyze_call] returns, without dividing, the
    9 canonical keys all mapped to 0.0. *)
Theorem unrecognized_labels_give_zeros (audio_path : string) :
  let segs := segments (transcriber_transcribe (ffmpeg_run audio_path)) in
  segs ≠ [] →
  (∀ seg, seg ∈ segs →
     Forall (λ item, ¬ recognized item) (emotion_model (seg_text seg))) →
  ∃ history transcript,
    analyze_call waveform ffmpeg_run transcriber_transcribe emotion_model
      audio_path
    = Some (history, vector_of (λ _, 0%Qc), transcript).
Proof.
  intros segs Hsegs Hnone. unfold analyze_call, preprocess_audio.
  rewrite analyze_transcription_eq. fold segs.
  do 2 eexists. do 2 f_equal. f_equal.
  rewrite totals_after_vector by done.
  rewrite (vector_of_ext _ (λ _, 0%Qc))
    by (intros k _; by apply segment_sum_unrecognized).
  rewrite sum_values_vector, labels_sum_zero, fmap_vector_of.
  apply vector_of_ext. intros k _. unfold final_value.
  rewrite decide_False; [done|]. intros Hlt. by apply Qclt_not_eq in Hlt.
Qed.

End AggregatorProperties.

Lemma unrecognized_labels_give_zeros_witness :
  segments (fixed_transcriber (unit_ffmpeg "call.wav")) ≠ []
  ∧ (∀ seg, seg ∈ segments (fixed_transcriber (unit_ffmpeg "call.wav")) →
       Forall (λ item, ¬ recognized item) (foreign_model (seg_text seg)))
  ∧ ∃ history transcript,
      analyze_call unit unit_ffmpeg fixed_transcriber foreign_model
        "call.wav"
      = Some (history, vector_of (λ _, 0%Qc), transcript).
Proof.
  assert (H1 : segments (fixed_transcriber (unit_ffmpeg "call.wav")) ≠ [])
    by (vm_compute; discriminate).
  assert (H2 : ∀ seg,
             seg ∈ segments (fixed_transcriber (unit_ffmpeg "call.wav")) →
             Forall (λ item, ¬ recognized item)
                    (foreign_model (seg_text seg))).
  { intros seg _. repeat constructor; vm_compute; intros [? [=]]. }
  split; [exact H1|]. split; [exact H2|].
  exact (unrecognized_labels_give_zeros unit unit_ffmpeg fixed_transcriber
           foreign_model "call.wav" H1 H2).
Defined.

(** ** Insertion-ordered dictionaries *)

Lemma items_of_ext (f g : string → Qc) keys :
  (∀ k, k ∈ keys → f k = g k) → items_of f keys = items_of g keys.
Proof.
  intros Hfg. unfold items_of. apply list_fmap_ext.
  intros i k Hk. rewrite Hfg; [done|]. by eapply list_elem_of_lookup_2.
Qed.

Lemma od_keys_items_of f keys : OD.keys (items_of f keys) = keys.
Proof.
  unfold OD.keys, items_of. rewrite <-list_fmap_compose.
  induction keys as [|k keys IH]; [done|]. cbn. by rewrite IH.
Qed.

Lemma od_values_items_of f keys : OD.values (items_of f keys) = f <$> keys.
Proof.
  unfold OD.values, items_of. by rewrite <-list_fmap_compose.
Qed.

Lemma od_get_items_of f keys k :
  OD.get (items_of f keys) k
  = if decide (k ∈ keys) then Some (f k) else None.
Proof.
  induction keys as [|k0 keys IH]; [done|].
  cbn [items_of fmap list_fmap OD.get]. fold (items_of f keys).
  destruct (String.eqb_spec k k0) as [->|Hne].
  - by rewrite decide_True by left.
  - rewrite IH. destruct (decide (k ∈ keys)) as [Hin|Hout].
    + by rewrite decide_True by (by right).
    + rewrite decide_False; [done|]. rewrite elem_of_cons. by intros [?|?].
Qed.

Lemma od_get_absent d k : k ∉ OD.keys d → OD.get d k = None.
Proof.
  induction d as [|[k0 v0] d IH]; [done|]. unfold OD.keys. cbn.
  intros [Hne Hout]%not_elem_of_cons.
  destruct (String.eqb_spec k k0) as [->|_]; [done | by apply IH].
Qed.

(** Storing under a new key appends it. *)
Lemma od_set_absent d k v : k ∉ OD.keys d → OD.set k v d = (d ++ [(k, v)])%list.
Proof.
  induction d as [|[k0 v0] d IH]; [done|]. unfold OD.keys. cbn.
  intros [Hne Hout]%not_elem_of_cons.
  destruct (String.eqb_spec k k0) as [->|_]; [done|]. by rewrite IH.
Qed.

(** Storing under an existing key changes its value where it stands. *)
Lemma od_set_items_of f keys k v :
  NoDup keys → k ∈ keys →
  OD.set k v (items_of f keys)
  = items_of (λ k', if decide (k = k') then v else f k') keys.
Proof.
  induction 1 as [|k0 keys Hk0 _ IH]; intros Hk.
  - by apply elem_of_nil in Hk.
  - cbn [items_of fmap list_fmap OD.set]. fold (items_of f keys).
    fold (items_of (λ k', if decide (k = k') then v else f k') keys).
    destruct (String.eqb_spec k k0) as [->|Hne].
    + rewrite decide_True by done. f_equal. apply items_of_ext.
      intros k' Hk'. rewrite decide_False; [done|]. by intros <-.
    + rewrite decide_False by done. f_equal. apply IH.
      apply elem_of_cons in Hk as [?|?]; done.
Qed.

Lemma od_set_to_map k v d :
  OD.to_map (OD.set k v d) = <[k := v]> (OD.to_map d).
Proof.
  unfold OD.to_map. induction d as [|[k0 v0] d IH]; [done|].
  cbn [OD.set]. destruct (String.eqb_spec k k0) as [->|Hne].
  - cbn. by rewrite insert_insert_eq.
  - cbn. rewrite IH. by apply insert_insert_ne.
Qed.

Lemma od_get_to_map d k : OD.get d k = OD.to_map d !! k.
Proof.
  unfold OD.to_map. induction d as [|[k0 v0] d IH]; [done|].
  cbn [OD.get]. destruct (String.eqb_spec k k0) as [->|Hne].
  - cbn. by rewrite lookup_insert_eq.
  - cbn. by rewrite lookup_insert_ne.
Qed.

Lemma od_to_map_items_of f :
  OD.to_map (items_of f emotion_labels) = vector_of f.
Proof. reflexivity. Qed.

Lemma foldl_Qcplus_acc (a : Qc) (xs : list Qc) :
  foldl Qcplus a xs = (a + foldl Qcplus 0%Qc xs)%Qc.
Proof.
  revert a. induction xs as [|x xs IH]; intros a; cbn [foldl].
  - by rewrite Qcplus_0_r.
  - rewrite IH, (IH (0 + x)%Qc). ring.
Qed.

Lemma od_sum_values_items_of f keys :
  OD.sum_values (items_of f keys) = labels_sum f keys.
Proof.
  unfold OD.sum_values. rewrite od_values_items_of. unfold labels_sum.
  induction keys as [|k keys IH]; [done|].
  cbn [fmap list_fmap foldl foldr]. rewrite foldl_Qcplus_acc.
  fold (list_fmap _ _ f keys). fold (fmap (M := list) f keys).
  rewrite IH. ring.
Qed.

(** ** The ordered mapper *)

Lemma ordered_fromkeys :
  OD.fromkeys emotion_labels 0%Qc = items_of (λ _, 0%Qc) emotion_labels.
Proof. reflexivity. Qed.

Lemma ordered_classify_item_bucket mapped item :
  Ordered.classify_item mapped item
  = match bucket_of (Py.lower (label item)) with
    | Some b => OD.iadd b (score item) mapped
    | None => Some mapped
    end.
Proof.
  unfold Ordered.classify_item, bucket_of, grouping_table, Py.contains.
  cbn [assoc existsb]. generalize (Py.lower (label item)). intros l.
  repeat (destruct (String.eqb l _); [reflexivity|]; cbn [orb]).
  reflexivity.
Qed.

Lemma od_iadd_items_of f keys b s :
  NoDup keys → b ∈ keys →
  OD.iadd b s (items_of f keys)
  = Some (items_of (λ b', (f b' + (if decide (b = b') then s else 0))%Qc)
                   keys).
Proof.
  intros Hnd Hb. unfold OD.iadd.
  rewrite od_get_items_of, decide_True by done.
  rewrite od_set_items_of by done. f_equal. apply items_of_ext.
  intros b' _. case_decide as Hbb; [by subst | by rewrite Qcplus_0_r].
Qed.

Lemma ordered_classify_item_items f item :
  Ordered.classify_item (items_of f emotion_labels) item
  = Some (items_of (λ b, (f b + contribution b item)%Qc) emotion_labels).
Proof.
  rewrite ordered_classify_item_bucket. unfold contribution.
  destruct (bucket_of (Py.lower (label item))) as [b'|] eqn:Hb.
  - apply od_iadd_items_of; [apply emotion_labels_NoDup|].
    by eapply bucket_of_canonical.
  - f_equal. apply items_of_ext. intros b _. by rewrite Qcplus_0_r.
Qed.

Lemma ordered_classify_items_items result f :
  Ordered.classify_items result (items_of f emotion_labels)
  = Some (items_of (λ b, (f b + bucket_sum b result)%Qc) emotion_labels).
Proof.
  revert f. induction result as [|item rest IH]; intros f.
  - cbn [Ordered.classify_items]. f_equal. apply items_of_ext. intros b _.
    by rewrite bucket_sum_nil, Qcplus_0_r.
  - cbn [Ordered.classify_items]. rewrite ordered_classify_item_items.
    cbn [mbind option_bind]. rewrite IH.
    f_equal. apply items_of_ext. intros b _.
    by rewrite bucket_sum_cons, Qcplus_assoc.
Qed.

(** The ordered mapper in closed form: the 9 labels in the order of
    [emotion_labels], each with its bucket sum. *)
Lemma ordered_map_result_items result :
  Ordered.map_result result
  = Some (items_of (λ b, bucket_sum b result) emotion_labels).
Proof.
  unfold Ordered.map_result.
  rewrite ordered_fromkeys, ordered_classify_items_items.
  f_equal. apply items_of_ext. intros b _. by rewrite Qcplus_0_l.
Qed.

(** ** The ordered aggregator *)

(** Into totals that have none of the keys, the vector is appended in its
    order. *)
Lemma ordered_add_emotions_fresh f keys d :
  NoDup keys → (∀ k, k ∈ keys → k ∉ OD.keys d) →
  Ordered.add_emotions (items_of f keys) d = (d ++ items_of f keys)%list.
Proof.
  intros Hnd. revert d. induction Hnd as [|k keys Hk _ IH]; intros d Hfresh.
  - by rewrite app_nil_r.
  - unfold Ordered.add_emotions.
    cbn [items_of fmap list_fmap foldl fst snd]. fold (items_of f keys).
    fold (Ordered.add_emotions (items_of f keys)
            (OD.dd_iadd k (f k) d)).
    unfold OD.dd_iadd.
    rewrite od_get_absent, od_set_absent by (apply Hfresh; left).
    cbn [default]. rewrite Qcplus_0_l, IH.
    + by rewrite <-(assoc_L (++)).
    + intros k' Hk'. unfold OD.keys. rewrite fmap_app, elem_of_app.
      intros [Hin|Hin].
      * by apply (Hfresh k'); [right|].
      * cbn in Hin. apply list_elem_of_singleton in Hin. by subst.
Qed.

(** Into totals that have the keys of the vector, it is added key by key,
    and the order of the totals stays. *)
Lemma ordered_add_emotions_sub f g keys sub :
  NoDup keys → NoDup sub → (∀ k, k ∈ sub → k ∈ keys) →
  Ordered.add_emotions (items_of f sub) (items_of g keys)
  = items_of (λ k, if decide (k ∈ sub) then (g k + f k)%Qc else g k) keys.
Proof.
  intros Hkeys Hsub. revert g.
  induction Hsub as [|k sub Hk _ IH]; intros g Hin.
  - cbn. apply items_of_ext. intros k _.
    rewrite decide_False; [done | apply not_elem_of_nil].
  - unfold Ordered.add_emotions.
    cbn [items_of fmap list_fmap foldl fst snd]. fold (items_of f sub).
    fold (Ordered.add_emotions (items_of f sub)
            (OD.dd_iadd k (f k) (items_of g keys))).
    unfold OD.dd_iadd.
    rewrite od_get_items_of, decide_True by (apply Hin; left).
    cbn [default]. rewrite od_set_items_of by (done || apply Hin; left).
    rewrite IH by (intros k' Hk'; apply Hin; by right).
    apply items_of_ext. intros k' _.
    destruct (decide (k = k')) as [<-|Hne].
    + rewrite decide_False by done. by rewrite decide_True by left.
    + destruct (decide (k' ∈ sub)) as [Hs|Hs].
      * by rewrite decide_True by (by right).
      * rewrite decide_False; [done|]. rewrite elem_of_cons.
        by intros [?|?].
Qed.

Lemma ordered_add_emotions_same f g keys :
  NoDup keys →
  Ordered.add_emotions (items_of f keys) (items_of g keys)
  = items_of (λ k, (g k + f k)%Qc) keys.
Proof.
  intros Hnd. rewrite ordered_add_emotions_sub by done.
  apply items_of_ext. intros k Hk. by rewrite decide_True.
Qed.

(** The comprehension keeps the keys in their order. *)
Lemma ordered_comprehension total g keys acc :
  NoDup keys → (∀ k, k ∈ keys → k ∉ OD.keys acc) →
  foldl (λ acc kv, d ← acc; p ← percentage total kv.2;
                   Some (OD.set kv.1 p d))
        (Some acc) (items_of g keys)
  = Some (acc ++ items_of (λ k, final_value total (g k)) keys)%list.
Proof.
  intros Hnd. revert acc.
  induction Hnd as [|k keys Hk _ IH]; intros acc Hfresh.
  - cbn. by rewrite app_nil_r.
  - cbn [items_of fmap list_fmap foldl fst snd mbind option_bind].
    fold (items_of g keys).
    fold (items_of (λ k, final_value total (g k)) keys).
    rewrite percentage_eq. cbn [mbind option_bind].
    rewrite od_set_absent by (apply Hfresh; left).
    rewrite IH.
    + by rewrite <-(assoc_L (++)).
    + intros k' Hk'. unfold OD.keys. rewrite fmap_app, elem_of_app.
      intros [Hin|Hin].
      * by apply (Hfresh k'); [right|].
      * cbn in Hin. apply list_elem_of_singleton in Hin. by subst.
Qed.

Lemma ordered_final_percentages_items g keys :
  NoDup keys →
  Ordered.final_percentages (items_of g keys)
  = Some (items_of (λ k, final_value (labels_sum g keys) (g k)) keys).
Proof.
  intros Hnd. unfold Ordered.final_percentages.
  rewrite od_sum_values_items_of.
  rewrite (ordered_comprehension _ _ _ []); [done | done |].
  intros k _. apply not_elem_of_nil.
Qed.

Section OrderedProperties.

Variable waveform : Type.
Variable ffmpeg_run : string → waveform.
Variable transcriber_transcribe : waveform → transcription.
Variable emotion_model : string → list raw_item.

Lemma ordered_analyze_segment_eq lang st seg :
  Ordered.analyze_segment emotion_model lang st seg
  = Some {| Ordered.emotion_totals :=
              Ordered.add_emotions
                (Ordered.emotions (ordered_entry_of emotion_model seg))
                (Ordered.emotion_totals st);
            Ordered.utterance_count := Ordered.utterance_count st + 1;
            Ordered.emotion_history :=
              (Ordered.emotion_history st
               ++ [ordered_entry_of emotion_model seg])%list;
            Ordered.full_transcript :=
              (Ordered.full_transcript st ++ [seg_text seg])%list |}.
Proof.
  unfold Ordered.analyze_segment, Ordered.classify_emotion,
    translate_text_auto.
  by rewrite ordered_map_result_items.
Qed.

(** From totals that already have the 9 keys. *)
Lemma ordered_analyze_segments_items lang segs g n history transcript :
  Ordered.analyze_segments emotion_model lang segs
    {| Ordered.emotion_totals := items_of g emotion_labels;
       Ordered.utterance_count := n;
       Ordered.emotion_history := history;
       Ordered.full_transcript := transcript |}
  = Some {| Ordered.emotion_totals :=
              items_of (λ k, (g k + segment_sum emotion_model k segs)%Qc)
                       emotion_labels;
            Ordered.utterance_count := n + length segs;
            Ordered.emotion_history :=
              (history ++ (ordered_entry_of emotion_model <$> segs))%list;
            Ordered.full_transcript :=
              (transcript ++ (seg_text <$> segs))%list |}.
Proof.
  revert g n history transcript.
  induction segs as [|seg rest IH]; intros g n history transcript.
  - cbn [Ordered.analyze_segments fmap list_fmap length].
    rewrite !app_nil_r, Nat.add_0_r. do 2 f_equal.
    apply items_of_ext. intros k _. cbn. by rewrite Qcplus_0_r.
  - cbn [Ordered.analyze_segments]. rewrite ordered_analyze_segment_eq.
    cbn [mbind option_bind Ordered.emotion_totals Ordered.utterance_count
         Ordered.emotion_history Ordered.full_transcript
         Ordered.emotions ordered_entry_of].
    rewrite ordered_add_emotions_same by apply emotion_labels_NoDup.
    rewrite IH. cbn [fmap list_fmap length].
    rewrite <-!(assoc_L (++)). cbn [app]. f_equal. f_equal.
    + apply items_of_ext. intros k _. cbn [segment_sum foldr].
      by rewrite Qcplus_assoc.
    + lia.
Qed.

(** From the initial state. *)
Lemma ordered_analyze_segments_eq lang segs :
  Ordered.analyze_segments emotion_model lang segs Ordered.initial_state
  = Some {| Ordered.emotion_totals :=
              match segs with
              | [] => []
              | _ =>
                  items_of (λ k, segment_sum emotion_model k segs)
                           emotion_labels
              end;
            Ordered.utterance_count := length segs;
            Ordered.emotion_history := ordered_entry_of emotion_model <$> segs;
            Ordered.full_transcript := seg_text <$> segs |}.
Proof.
  destruct segs as [|seg rest]; [done|].
  cbn [Ordered.analyze_segments]. rewrite ordered_analyze_segment_eq.
  cbn [mbind option_bind Ordered.emotion_totals Ordered.utterance_count
       Ordered.emotion_history Ordered.full_transcript Ordered.initial_state
       Ordered.emotions ordered_entry_of].
  rewrite ordered_add_emotions_fresh;
    [|apply emotion_labels_NoDup | intros k _; apply not_elem_of_nil].
  cbn [app]. rewrite ordered_analyze_segments_items.
  cbn [fmap list_fmap length app]. do 2 f_equal.
Qed.

(** What the ordered [analyze_call] returns, in closed form. *)
Lemma ordered_analyze_transcription_eq result :
  let segs := segments result in
  Ordered.analyze_transcription emotion_model result
  = Some (ordered_entry_of emotion_model <$> segs,
          match segs with
          | [] => []
          | _ =>
              items_of
                (λ k, final_value
                        (labels_sum
                           (λ k, segment_sum emotion_model k segs)
                           emotion_labels)
                        (segment_sum emotion_model k segs))
                emotion_labels
          end,
          newline_separated (seg_text <$> segs)).
Proof.
  intros segs. unfold Ordered.analyze_transcription. fold segs.
  rewrite ordered_analyze_segments_eq.
  cbn [mbind option_bind Ordered.emotion_totals Ordered.emotion_history
       Ordered.full_transcript].
  rewrite join_newline_separated.
  destruct segs as [|seg rest]; [done|].
  rewrite ordered_final_percentages_items by apply emotion_labels_NoDup.
  done.
Qed.

(** X7: the keys of the [final_percentages] that [analyze_call] returns
    come in the order of [emotion_labels] as soon as one segment was
    transcribed (there is no key otherwise), and so do the keys of every
    vector of the history; without their order, the dictionaries are those
    of the unordered embedding. *)
Theorem percentages_keep_label_order (audio_path : string) :
  let segs := segments (transcriber_transcribe (ffmpeg_run audio_path)) in
  ∃ history final transcript,
    Ordered.analyze_call waveform ffmpeg_run transcriber_transcribe
      emotion_model audio_path
    = Some (history, final, transcript)
    ∧ OD.keys final = match segs with [] => [] | _ => emotion_labels end
    ∧ Forall (λ entry, OD.keys (Ordered.emotions entry) = emotion_labels)
             history
    ∧ analyze_call waveform ffmpeg_run transcriber_transcribe emotion_model
        audio_path
      = Some (forget_order <$> history, OD.to_map final, transcript).
Proof.
  intros segs. unfold Ordered.analyze_call, analyze_call, preprocess_audio.
  rewrite ordered_analyze_transcription_eq, analyze_transcription_eq.
  fold segs. do 3 eexists. split; [done|]. split; [|split].
  - destruct segs; [done | apply od_keys_items_of].
  - apply Forall_fmap, Forall_true. intros seg. apply od_keys_items_of.
  - f_equal. f_equal. f_equal.
    + rewrite <-list_fmap_compose. by apply list_fmap_ext.
    + destruct segs as [|seg rest] eqn:Hsegs.
      { cbn [totals_after foldl]. by rewrite fmap_empty. }
      rewrite <-Hsegs. assert (Hne : segs ≠ []) by (by rewrite Hsegs).
      rewrite (totals_after_vector emotion_model segs Hne).
      by rewrite sum_values_vector, fmap_vector_of.
Qed.

End OrderedProperties.

(** ** The charts of [run_live_analysis] *)

Lemma timing_minutes_seconds (n : nat) :
  ((n * 30) / 60 = n / 2)%nat
  ∧ ((n * 30) mod 60 = if Nat.even n then 0 else 30)%nat.
Proof.
  destruct (Nat.Even_or_Odd n) as [[m ->]|[m ->]].
  - replace (2 * m * 30)%nat with (m * 60)%nat by lia.
    rewrite Nat.div_mul, Nat.Div0.mod_mul by done.
    replace (2 * m)%nat with (m * 2)%nat by lia.
    rewrite Nat.div_mul by done.
    replace (m * 2)%nat with (2 * m)%nat by lia.
    by rewrite Nat.even_even.
  - replace ((2 * m + 1) * 30)%nat with (30 + m * 60)%nat by lia.
    rewrite Nat.div_add, Nat.Div0.mod_add by done.
    replace (2 * m + 1)%nat with (1 + m * 2)%nat by lia.
    rewrite Nat.div_add by done.
    replace (1 + m * 2)%nat with (2 * m + 1)%nat by lia.
    by rewrite Nat.even_odd.
Qed.

(** X8: the duration that [run_live_analysis] reports is 30 seconds per
    history entry, whatever the audio: [n / 2] minutes and 0 or 30
    seconds. *)
Theorem timing_counts_half_minutes (n : nat) :
  timing_info n
  = "📊 Analysis completed in " +:+ pretty n +:+ " segments over "
    +:+ pretty (n / 2)%nat +:+ "m "
    +:+ (if Nat.even n then "0" else "30") +:+ "s".
Proof.
  unfold timing_info. destruct (timing_minutes_seconds n) as [-> ->].
  by destruct (Nat.even n).
Qed.

Lemma palette_repeats_palette : repeats_palette palette.
Proof.
  split; [done|]. intros i Hi. cbn in Hi.
  rewrite Nat.mod_small by done. done.
Qed.

(** Doubling a list that repeats the palette a whole number of times gives
    such a list again. *)
Lemma repeats_palette_double colors m :
  length colors = (m * 8)%nat → repeats_palette colors →
  repeats_palette (colors ++ colors)%list.
Proof.
  intros Hlen [Hne Hper]. split; [by destruct colors|].
  intros i Hi. rewrite length_app in Hi.
  destruct (decide (i < length colors)%nat) as [Hlt|Hge].
  - rewrite lookup_app_l by done. by apply Hper.
  - rewrite lookup_app_r by lia. rewrite Hper by lia. f_equal.
    rewrite Hlen.
    replace i with ((i - m * 8) + m * 8)%nat at 2 by lia.
    by rewrite Nat.Div0.mod_add.
Qed.

(** The loop ends before [fuel] runs out when [fuel] is at least the number
    of colours still missing, and what it returns repeats the palette. *)
Lemma extend_colors_repeats fuel colors n m :
  length colors = (m * 8)%nat → repeats_palette colors →
  (n ≤ length colors + fuel)%nat →
  ∃ colors', extend_colors fuel colors n = Some colors'
             ∧ repeats_palette colors' ∧ (n ≤ length colors')%nat.
Proof.
  revert colors m. induction fuel as [|fuel IH]; intros colors m Hlen Hrep Hn.
  - cbn [extend_colors]. destruct (Nat.ltb_spec (length colors) n); [lia|].
    eauto.
  - cbn [extend_colors]. destruct (Nat.ltb_spec (length colors) n); [|eauto].
    apply (IH _ (2 * m)%nat).
    + rewrite length_app. lia.
    + by eapply repeats_palette_double.
    + rewrite length_app. destruct Hrep as [Hne _].
      destruct colors; [done|]. cbn [length] in *. lia.
Qed.

(** More fuel does not change what the loop returns. *)
Lemma extend_colors_more_fuel fuel fuel' colors n colors' :
  extend_colors fuel colors n = Some colors' → (fuel ≤ fuel')%nat →
  extend_colors fuel' colors n = Some colors'.
Proof.
  revert fuel' colors. induction fuel as [|fuel IH]; intros fuel' colors.
  - cbn [extend_colors]. destruct (Nat.ltb_spec (length colors) n); [done|].
    intros [= <-] _. destruct fuel'; cbn [extend_colors];
      destruct (Nat.ltb_spec (length colors) n); done || lia.
  - cbn [extend_colors].
    destruct (Nat.ltb_spec (length colors) n) as [Hlt|Hge].
    + intros Hrec Hle. destruct fuel' as [|fuel']; [lia|].
      cbn [extend_colors].
      destruct (Nat.ltb_spec (length colors) n); [|lia].
      apply IH; [done | lia].
    + intros [= <-] _. destruct fuel'; cbn [extend_colors];
        destruct (Nat.ltb_spec (length colors) n); done || lia.
Qed.

Lemma palette_color_lookup i : palette !! (i mod 8)%nat = Some (palette_color i).
Proof.
  unfold palette_color.
  assert (Hlt : (i mod 8 < 8)%nat) by (apply Nat.mod_upper_bound; lia).
  destruct (palette !! (i mod 8)%nat) as [c|] eqn:Hc; [done|].
  apply lookup_ge_None in Hc. cbn in Hc. lia.
Qed.

Lemma color_at_repeats colors i :
  repeats_palette colors → (i < length colors)%nat →
  color_at colors i = Some (palette_color i).
Proof.
  intros [Hne Hper] Hi. unfold color_at, PyList.modulo, PyList.item.
  destruct (Nat.eqb_spec (length colors) 0) as [H0|_]; [lia|].
  cbn [mbind option_bind]. rewrite Nat.mod_small by done.
  rewrite Hper by done. apply palette_color_lookup.
Qed.

Lemma mapM_fmap_Some {A B} (f : A → option B) (g : A → B) (l : list A) :
  (∀ x, x ∈ l → f x = Some (g x)) → mapM f l = Some (g <$> l).
Proof.
  intros Hfg. apply mapM_Some. apply Forall2_fmap_r, Forall_Forall2_diag.
  apply Forall_forall. exact Hfg.
Qed.

Lemma cycle_colors_repeats colors n :
  repeats_palette colors → (n ≤ length colors)%nat →
  cycle_colors colors n = Some (palette_color <$> seq 0 n).
Proof.
  intros Hrep Hn. unfold cycle_colors. apply mapM_fmap_Some.
  intros i Hi%elem_of_seq. apply color_at_repeats; [done | lia].
Qed.

(** X9: the loop that extends [colors] ends for every number of emotions,
    within as many iterations as there are emotions; the list it leaves is
    long enough, so that no index is out of range, and repeats the palette:
    the [i]-th bar gets colour [i mod 8] of the palette. *)
Theorem colors_cycle_through_palette (n : nat) :
  ∃ colors,
    extend_colors n palette n = Some colors
    ∧ (∀ fuel, (n ≤ fuel)%nat → extend_colors fuel palette n = Some colors)
    ∧ (n ≤ length colors)%nat
    ∧ cycle_colors colors n = Some (palette_color <$> seq 0 n).
Proof.
  destruct (extend_colors_repeats n palette n 1) as (colors & Hext & Hrep & Hn);
    [done | apply palette_repeats_palette | lia |].
  exists colors. split; [done|]. split; [|split; [done|]].
  - intros fuel Hfuel. by eapply extend_colors_more_fuel.
  - by apply cycle_colors_repeats.
Qed.

Lemma py_max_foldl (m : Qc) (l : list Qc) :
  let r := foldl (λ m y, if decide (m < y)%Qc then y else m) m l in
  (r = m ∨ r ∈ l) ∧ (m ≤ r)%Qc ∧ Forall (λ v, (v ≤ r)%Qc) l.
Proof.
  revert m. induction l as [|y l IH]; intros m.
  - cbn. split; [by left|]. split; [apply Qcle_refl | constructor].
  - cbn [foldl]. destruct (decide (m < y)%Qc) as [Hlt|Hge].
    + destruct (IH y) as (Hin & Hle & Hall). cbn zeta in *.
      split; [right; destruct Hin as [->|?]; [left | by right]|].
      split; [|by constructor].
      apply Qcle_trans with y; [by apply Qclt_le_weak | done].
    + destruct (IH m) as (Hin & Hle & Hall). cbn zeta in *.
      split; [destruct Hin as [?|?]; [by left | right; by right]|].
      split; [done|]. constructor; [|done].
      apply Qcle_trans with m; [by apply Qcnot_lt_le | done].
Qed.

(** [max] raises on the empty list only, and returns an element that no
    other exceeds. *)
Lemma py_max_spec (l : list Qc) :
  match PyList.max l with
  | None => l = []
  | Some m => m ∈ l ∧ Forall (λ v, (v ≤ m)%Qc) l
  end.
Proof.
  destruct l as [|x l]; [done|]. cbn [PyList.max].
  destruct (py_max_foldl x l) as (Hin & Hle & Hall). cbn zeta in *.
  split; [destruct Hin as [->|?]; [left | by right]|by constructor].
Qed.

Lemma od_get_or_items_of f keys k fallback :
  OD.get_or (items_of f keys) k fallback
  = if decide (k ∈ keys) then f k else fallback.
Proof. unfold OD.get_or. rewrite od_get_items_of. by case_decide. Qed.

Lemma enumerate_index {A} (l : list A) (ix : nat * A) :
  ix ∈ PyList.enumerate l → (ix.1 < length l)%nat.
Proof.
  destruct ix as [i x]. unfold PyList.enumerate.
  intros Hin%elem_of_zip_l. apply elem_of_seq in Hin. cbn. lia.
Qed.

Section ChartProperties.

Variable waveform : Type.
Variable ffmpeg_run : string → waveform.
Variable transcriber_transcribe : waveform → transcription.
Variable emotion_model : string → list raw_item.
Variable image : Type.
Variable fig_to_image : figure → image.
Variable gaussian_filter1d : list Qc → list Qc.

(** X10: for each key, the trend that [run_live_analysis] plots has one
    value per segment, in order: the sum of the scores that the classifier's
    output for that segment sends to the key; the fallback of [.get] is
    never needed for a canonical key. *)
Theorem trend_follows_segments (audio_path emotion : string) :
  let segs := segments (transcriber_transcribe (ffmpeg_run audio_path)) in
  ∃ history final transcript,
    Ordered.analyze_call waveform ffmpeg_run transcriber_transcribe
      emotion_model audio_path
    = Some (history, final, transcript)
    ∧ values_trend history emotion
      = (λ seg, bucket_sum emotion (emotion_model (seg_text seg))) <$> segs
    ∧ (emotion ∈ emotion_labels →
       Forall (λ entry, is_Some (OD.get (Ordered.emotions entry) emotion))
              history).
Proof.
  intros segs. unfold Ordered.analyze_call, preprocess_audio.
  rewrite ordered_analyze_transcription_eq. fold segs.
  do 3 eexists. split; [done|]. split.
  - unfold values_trend. rewrite <-list_fmap_compose.
    apply list_fmap_ext. intros i seg _. unfold compose.
    cbn [Ordered.emotions ordered_entry_of].
    rewrite od_get_or_items_of. case_decide; [done|].
    by rewrite bucket_sum_noncanonical.
  - intros Hin. apply Forall_fmap, Forall_true. intros seg.
    unfold compose. cbn [Ordered.emotions ordered_entry_of].
    rewrite od_get_items_of, decide_True by done. eauto.
Qed.

Lemma render_result_no_keys history transcript :
  render_result image fig_to_image gaussian_filter1d
    (Some (history, [], transcript))
  = None.
Proof. reflexivity. Qed.

Lemma render_result_labels history final transcript :
  OD.keys final = emotion_labels →
  ∃ largest,
    PyList.max (OD.values final) = Some largest
    ∧ render_result image fig_to_image gaussian_filter1d
        (Some (history, final, transcript))
      = Some ("✅ Analysis completed successfully!" +:+ nl
                +:+ timing_info (length history),
              Some (fig_to_image
                      (BarFigure emotion_labels (OD.values final)
                         (palette_color <$> seq 0 9)
                         (largest + Q2Qc 8)%Qc)),
              Some (fig_to_image
                      (LineFigure
                         ((λ ie, (ie.2,
                                  gaussian_filter1d
                                    (values_trend history ie.2),
                                  palette_color ie.1))
                            <$> PyList.enumerate emotion_labels))),
              transcript).
Proof.
  intros Hkeys.
  pose proof (py_max_spec (OD.values final)) as Hmax.
  destruct (PyList.max (OD.values final)) as [largest|] eqn:Hlargest.
  2:{ exfalso. assert (Hlen : length (OD.keys final) = 9%nat)
        by (by rewrite Hkeys).
      unfold OD.keys in Hlen. unfold OD.values in Hmax.
      rewrite length_fmap in Hlen. apply fmap_nil_inv in Hmax.
      by rewrite Hmax in Hlen. }
  exists largest. split; [done|].
  unfold render_result. rewrite Hkeys, Hlargest.
  change (length emotion_labels) with 9%nat.
  destruct (extend_colors_repeats 9 palette 9 1)
    as (colors & -> & Hrep & Hn);
    [done | apply palette_repeats_palette | lia |].
  cbn [mbind option_bind]. rewrite cycle_colors_repeats by done.
  cbn [mbind option_bind].
  rewrite (mapM_fmap_Some _
             (λ ie, (ie.2, gaussian_filter1d (values_trend history ie.2),
                     palette_color ie.1))).
  - done.
  - intros ie Hie%enumerate_index. unfold trend_line.
    rewrite color_at_repeats; [done | done |].
    change (length emotion_labels) with 9%nat in Hie. lia.
Qed.

(** X11: [run_live_analysis] raises exactly when the transcription has no
    segment: [max] is then applied to the empty list of percentages. *)
Theorem run_live_analysis_raises_iff_silent (audio_file : string) :
  run_live_analysis waveform ffmpeg_run transcriber_transcribe emotion_model
    image fig_to_image gaussian_filter1d audio_file
  = None
  ↔ segments (transcriber_transcribe (ffmpeg_run audio_file)) = [].
Proof.
  unfold run_live_analysis, Ordered.analyze_call, preprocess_audio.
  rewrite ordered_analyze_transcription_eq. cbn [mbind option_bind].
  destruct (segments (transcriber_transcribe (ffmpeg_run audio_file)))
    as [|seg rest] eqn:Hsegs.
  - by rewrite render_result_no_keys.
  - edestruct render_result_labels as (largest & _ & ->);
      [apply od_keys_items_of | done].
Qed.

(** X12: when at least one segment was transcribed, [run_live_analysis]
    returns the success status with the timing, the transcript of
    [analyze_call] and two charts: the bars are the 9 labels in the order of
    [emotion_labels] with their percentages, the x axis ends 8 above the
    largest percentage, and there is one trend line per label, in that
    order; bar and line number [i] have colour [i mod 8] of the palette. *)
Theorem run_live_analysis_charts (audio_file : string) :
  segments (transcriber_transcribe (ffmpeg_run audio_file)) ≠ [] →
  ∃ history final transcript largest,
    Ordered.analyze_call waveform ffmpeg_run transcriber_transcribe
      emotion_model audio_file
    = Some (history, final, transcript)
    ∧ OD.keys final = emotion_labels
    ∧ PyList.max (OD.values final) = Some largest
    ∧ run_live_analysis waveform ffmpeg_run transcriber_transcribe
        emotion_model image fig_to_image gaussian_filter1d audio_file
      = Some ("✅ Analysis completed successfully!" +:+ nl
                +:+ timing_info (length history),
              Some (fig_to_image
                      (BarFigure emotion_labels (OD.values final)
                         (palette_color <$> seq 0 9)
                         (largest + Q2Qc 8)%Qc)),
              Some (fig_to_image
                      (LineFigure
                         ((λ ie, (ie.2,
                                  gaussian_filter1d
                                    (values_trend history ie.2),
                                  palette_color ie.1))
                            <$> PyList.enumerate emotion_labels))),
              transcript).
Proof.
  intros Hsegs.
  unfold run_live_analysis, Ordered.analyze_call, preprocess_audio.
  rewrite ordered_analyze_transcription_eq. cbn [mbind option_bind].
  destruct (segments (transcriber_transcribe (ffmpeg_run audio_file)))
    as [|seg rest] eqn:Hs; [done|]. rewrite <-Hs.
  edestruct render_result_labels as (largest & Hmax & Hrender);
    [apply od_keys_items_of|].
  do 4 eexists. split; [done|]. split; [apply od_keys_items_of|].
  split; [exact Hmax | exact Hrender].
Qed.

End ChartProperties.

(** ** [process_batch] when [run_live_analysis] can raise *)

Section BatchRaisingProperties.

Variable image : Type.
Variable run : string → option (string * option image * option image * string).
Variable basename : string → string.

Lemma process_file_outcome (ok : string → _) outcome st i file :
  ok file = outcome →
  process_file image (λ _, outcome) basename st i file
  = process_file image ok basename st i file.
Proof. intros <-. reflexivity. Qed.

Lemma process_files_raising_ok ok i files st :
  (∀ file, file ∈ files → run file = Some (ok file)) →
  process_files_raising image run basename i files st
  = Some (process_files image ok basename i files st).
Proof.
  revert i st. induction files as [|file rest IH]; intros i st Hok; [done|].
  cbn [process_files_raising process_files].
  rewrite (Hok file) by left. cbn [mbind option_bind].
  rewrite (process_file_outcome ok) by done.
  apply IH. intros file' Hin. apply Hok. by right.
Qed.

Lemma process_files_raising_fail i files st file :
  file ∈ files → run file = None →
  process_files_raising image run basename i files st = None.
Proof.
  revert i st. induction files as [|file0 rest IH]; intros i st Hin Hfail.
  - by apply elem_of_nil in Hin.
  - cbn [process_files_raising].
    destruct (run file0) as [outcome|] eqn:Hrun; [|done].
    cbn [mbind option_bind]. apply IH; [|done].
    apply elem_of_cons in Hin as [->|Hin]; [congruence | done].
Qed.

(** X14: [process_batch] has no exception handler.  When the analysis of
    every file it would process returns, it returns what the batch of these
    results is, whatever the files past the 10th would do; when the analysis
    of one of the files it would process raises, the whole batch raises and
    nothing is returned for the other files. *)
Theorem batch_raises_with_any_file (audio_files : list string) :
  (∀ ok,
     (∀ file, file ∈ files_to_process audio_files →
              run file = Some (ok file)) →
     process_batch_raising image run basename audio_files
     = Some (process_batch image ok basename audio_files))
  ∧ (∀ file,
       file ∈ files_to_process audio_files → run file = None →
       process_batch_raising image run basename audio_files = None).
Proof.
  split.
  - intros ok Hok. unfold process_batch_raising, process_batch.
    destruct audio_files as [|file rest]; [done|].
    by rewrite (process_files_raising_ok ok).
  - intros file Hin Hfail. unfold process_batch_raising.
    destruct audio_files as [|file0 rest].
    + by apply elem_of_nil in Hin.
    + by rewrite (process_files_raising_fail _ _ _ file).
Qed.

End BatchRaisingProperties.

Lemma length_omap_all {A B} (f : A → option B) (l : list A) :
  (∀ x, x ∈ l → is_Some (f x)) → length (omap f l) = length l.
Proof.
  induction l as [|x l IH]; intros Hall; [done|].
  cbn [omap list_omap]. destruct (Hall x) as [y ->]; [left|].
  cbn [length]. rewrite IH; [done|]. intros x' Hx'. apply Hall. by right.
Qed.

Section BatchOfCalls.

Variable waveform : Type.
Variable ffmpeg_run : string → waveform.
Variable transcriber_transcribe : waveform → transcription.
Variable emotion_model : string → list raw_item.
Variable image : Type.
Variable fig_to_image : figure → image.
Variable gaussian_filter1d : list Qc → list Qc.
Variable basename : string → string.

Lemma run_live_analysis_voiced (audio_file : string) :
  segments (transcriber_transcribe (ffmpeg_run audio_file)) ≠ [] →
  ∃ status bar_fig line_fig transcript,
    run_live_analysis waveform ffmpeg_run transcriber_transcribe
      emotion_model image fig_to_image gaussian_filter1d audio_file
    = Some (status, Some bar_fig, Some line_fig, transcript).
Proof.
  intros Hsegs.
  unfold run_live_analysis, Ordered.analyze_call, preprocess_audio.
  rewrite ordered_analyze_transcription_eq. cbn [mbind option_bind].
  destruct (segments (transcriber_transcribe (ffmpeg_run audio_file)))
    as [|seg rest] eqn:Hs; [done|]. rewrite <-Hs.
  edestruct (render_result_labels image fig_to_image gaussian_filter1d)
    as (largest & _ & ->); [apply od_keys_items_of|].
  eauto.
Qed.

Lemma run_live_analysis_silent (audio_file : string) :
  segments (transcriber_transcribe (ffmpeg_run audio_file)) = [] →
  run_live_analysis waveform ffmpeg_run transcriber_transcribe
    emotion_model image fig_to_image gaussian_filter1d audio_file
  = None.
Proof.
  intros Hsegs.
  unfold run_live_analysis, Ordered.analyze_call, preprocess_audio.
  rewrite ordered_analyze_transcription_eq, Hsegs. reflexivity.
Qed.

(** X15: when every file that [process_batch] would process has at least
    one transcribed segment, the batch returns, and it returns one bar chart
    and one line chart per processed file: [min(10, length)] of each. *)
Theorem batch_of_voiced_calls (audio_files : list string) :
  (∀ file, file ∈ files_to_process audio_files →
           segments (transcriber_transcribe (ffmpeg_run file)) ≠ []) →
  ∃ status bar_figs line_figs transcripts note,
    process_batch_raising image
      (run_live_analysis waveform ffmpeg_run transcriber_transcribe
         emotion_model image fig_to_image gaussian_filter1d)
      basename audio_files
    = Some (status, bar_figs, line_figs, transcripts, note)
    ∧ length bar_figs = (10 `min` length audio_files)%nat
    ∧ length line_figs = (10 `min` length audio_files)%nat.
Proof.
  intros Hvoiced.
  set (run := run_live_analysis waveform ffmpeg_run transcriber_transcribe
                emotion_model image fig_to_image gaussian_filter1d).
  set (ok := λ file, default analysis_failed (run file)).
  assert (Hok : ∀ file, file ∈ files_to_process audio_files →
                  ∃ status bar_fig line_fig transcript,
                    run file = Some (ok file)
                    ∧ ok file = (status, Some bar_fig, Some line_fig,
                                 transcript)).
  { intros file Hin.
    destruct (run_live_analysis_voiced file (Hvoiced file Hin))
      as (status & bar_fig & line_fig & transcript & Hrun).
    exists status, bar_fig, line_fig, transcript. unfold ok.
    fold run in Hrun. by rewrite Hrun. }
  destruct audio_files as [|file rest].
  { do 5 eexists. split; [reflexivity | done]. }
  unfold process_batch_raising.
  rewrite (process_files_raising_ok image run basename ok)
    by (intros f Hf; by destruct (Hok f Hf) as (? & ? & ? & ? & ? & _)).
  cbn [mbind option_bind]. rewrite process_files_eq.
  cbn [statuses bars lines transcripts app].
  do 5 eexists. split; [reflexivity|].
  rewrite !length_omap_all, files_to_process_take, !length_take;
    [cbn [length]; lia | |].
  - intros f Hf. destruct (Hok f Hf) as (? & ? & ? & ? & _ & ->). eauto.
  - intros f Hf. destruct (Hok f Hf) as (? & ? & ? & ? & _ & ->). eauto.
Qed.

(** X16: one recording without any transcribed segment among the files that
    [process_batch] would process makes the whole batch raise. *)
Theorem silent_call_aborts_batch (audio_files : list string) (file : string) :
  file ∈ files_to_process audio_files →
  segments (transcriber_transcribe (ffmpeg_run file)) = [] →
  process_batch_raising image
    (run_live_analysis waveform ffmpeg_run transcriber_transcribe
       emotion_model image fig_to_image gaussian_filter1d)
    basename audio_files
  = None.
Proof.
  intros Hin Hsilent. unfold process_batch_raising.
  destruct audio_files as [|file0 rest]; [by apply elem_of_nil in Hin|].
  rewrite (process_files_raising_fail _ _ _ _ _ _ file); [done | done |].
  by apply run_live_analysis_silent.
Qed.

End BatchOfCalls.

Lemma run_live_analysis_charts_witness :
  segments (fixed_transcriber (unit_ffmpeg "call.wav")) ≠ []
  ∧ ∃ history final transcript largest,
      Ordered.analyze_call unit unit_ffmpeg fixed_transcriber fixed_model
        "call.wav"
      = Some (history, final, transcript)
      ∧ OD.keys final = emotion_labels
      ∧ PyList.max (OD.values final) = Some largest
      ∧ run_live_analysis unit unit_ffmpeg fixed_transcriber fixed_model
          figure id id "call.wav"
        = Some ("✅ Analysis completed successfully!" +:+ nl
                  +:+ timing_info (length history),
                Some (BarFigure emotion_labels (OD.values final)
                        (palette_color <$> seq 0 9)
                        (largest + Q2Qc 8)%Qc),
                Some (LineFigure
                        ((λ ie, (ie.2, values_trend history ie.2,
                                 palette_color ie.1))
                           <$> PyList.enumerate emotion_labels)),
                transcript).
Proof.
  assert (H : segments (fixed_transcriber (unit_ffmpeg "call.wav")) ≠ [])
    by (vm_compute; discriminate).
  split; [exact H|].
  exact (run_live_analysis_charts unit unit_ffmpeg fixed_transcriber
           fixed_model figure id id "call.wav" H).
Defined.

Lemma batch_of_voiced_calls_witness :
  (∀ file, file ∈ files_to_process eleven_files →
           segments (fixed_transcriber (unit_ffmpeg file)) ≠ [])
  ∧ ∃ status bar_figs line_figs transcripts note,
      process_batch_raising figure
        (run_live_analysis unit unit_ffmpeg fixed_transcriber fixed_model
           figure id id)
        id eleven_files
      = Some (status, bar_figs, line_figs, transcripts, note)
      ∧ length bar_figs = (10 `min` length eleven_files)%nat
      ∧ length line_figs = (10 `min` length eleven_files)%nat.
Proof.
  assert (H : ∀ file, file ∈ files_to_process eleven_files →
                segments (fixed_transcriber (unit_ffmpeg file)) ≠ [])
    by (intros file _; vm_compute; discriminate).
  split; [exact H|].
  exact (batch_of_voiced_calls unit unit_ffmpeg fixed_transcriber fixed_model
           figure id id id eleven_files H).
Defined.

Lemma silent_call_aborts_batch_witness :
  "silence.wav" ∈ files_to_process three_files
  ∧ segments (picky_transcriber (path_ffmpeg "silence.wav")) = []
  ∧ process_batch_raising figure
      (run_live_analysis string path_ffmpeg picky_transcriber fixed_model
         figure id id)
      id three_files
    = None.
Proof.
  assert (H1 : "silence.wav" ∈ files_to_process three_files)
    by (right; left).
  assert (H2 : segments (picky_transcriber (path_ffmpeg "silence.wav")) = [])
    by reflexivity.
  split; [exact H1|]. split; [exact H2|].
  exact (silent_call_aborts_batch string path_ffmpeg picky_transcriber
           fixed_model figure id id id three_files "silence.wav" H1 H2).
Defined.

(** ** [process_batch]: the cap of 10 files *)

Section BatchCap.

Variable image : Type.
Variable run : string → option (string * option image * option image * string).
Variable basename : string → string.

(** When the analysis of every processed file returns, so does the batch,
    with the notification as its last component. *)
Lemma process_batch_raising_note (audio_files : list string)
  (ok : string → string * option image * option image * string) :
  (∀ file, file ∈ files_to_process audio_files → run file = Some (ok file)) →
  audio_files ≠ [] →
  process_batch_raising image run basename audio_files
  = Some (Py.join nl
            (imap (status_entry ok basename) (files_to_process audio_files)),
          omap (λ file, (ok file).1.1.2) (files_to_process audio_files),
          omap (λ file, (ok file).1.2) (files_to_process audio_files),
          Py.join nl
            (imap (transcript_entry ok basename)
                  (files_to_process audio_files)),
          notification audio_files).
Proof.
  intros Hok Hfiles. unfold process_batch_raising.
  destruct audio_files as [|file rest]; [done|].
  rewrite (process_files_raising_ok image run basename ok) by done.
  cbn [mbind option_bind]. by rewrite process_files_eq.
Qed.

(** C9 (amended): [process_batch] has no exception handler, so it returns
    only when the analysis of every file it would process returns.  For
    every uploaded list with that property, it analyzes exactly the first
    [min(10, length)] files, in order (none, with the "no files" messages,
    when the list is empty); when more than 10 files are uploaded, the
    returned notification says that processing was limited to the first 10
    files and how many files were skipped. *)
Theorem batch_cap_is_notified (audio_files : list string)
  (ok : string → string * option image * option image * string) :
  (∀ file, file ∈ files_to_process audio_files → run file = Some (ok file)) →
  let processed := take (10 `min` length audio_files) audio_files in
  files_to_process audio_files = processed
  ∧ (audio_files = [] →
     process_batch_raising image run basename audio_files
     = Some ("❌ No files uploaded", [], [], "No transcriptions available.",
             "❌ Please upload audio files first."))
  ∧ (audio_files ≠ [] →
     ∃ note,
       process_batch_raising image run basename audio_files
       = Some (Py.join nl (imap (status_entry ok basename) processed),
               omap (λ file, (ok file).1.1.2) processed,
               omap (λ file, (ok file).1.2) processed,
               Py.join nl (imap (transcript_entry ok basename) processed),
               note)
       ∧ ((length audio_files ≤ 10)%nat →
          note = processed_notice (length audio_files))
       ∧ ((10 < length audio_files)%nat →
          note
          = processed_notice 10
            +:+ skipped_notice (length audio_files - 10))).
Proof.
  intros Hok processed. split; [apply files_to_process_take|]. split.
  - by intros ->.
  - intros Hfiles. exists (notification audio_files).
    split; [|apply notification_cases].
    rewrite (process_batch_raising_note audio_files ok) by done.
    by rewrite files_to_process_take.
Qed.

End BatchCap.

(** With [fixed_transcriber] every recording has two utterances, and the
    analysis of every file returns. *)
Lemma fixed_analysis_returns (file : string) :
  run_live_analysis unit unit_ffmpeg fixed_transcriber fixed_model figure id
    id file
  = Some (default analysis_failed
            (run_live_analysis unit unit_ffmpeg fixed_transcriber fixed_model
               figure id id file)).
Proof.
  destruct (run_live_analysis_voiced unit unit_ffmpeg fixed_transcriber
              fixed_model figure id id file)
    as (status & bar_fig & line_fig & transcript & ->); [|done].
  by vm_compute.
Qed.

Lemma batch_cap_is_notified_witness :
  let run :=
    run_live_analysis unit unit_ffmpeg fixed_transcriber fixed_model figure
      id id in
  let ok := λ file, default analysis_failed (run file) in
  (∀ file, file ∈ files_to_process eleven_files → run file = Some (ok file))
  ∧ eleven_files ≠ []
  ∧ ∃ note,
      process_batch_raising figure run id eleven_files
      = Some (Py.join nl (imap (status_entry ok id) (take 10 eleven_files)),
              omap (λ file, (ok file).1.1.2) (take 10 eleven_files),
              omap (λ file, (ok file).1.2) (take 10 eleven_files),
              Py.join nl
                (imap (transcript_entry ok id) (take 10 eleven_files)),
              note)
      ∧ ((length eleven_files ≤ 10)%nat →
         note = processed_notice (length eleven_files))
      ∧ ((10 < length eleven_files)%nat →
         note
         = processed_notice 10 +:+ skipped_notice (length eleven_files - 10)).
Proof.
  intros run ok.
  assert (Hok : ∀ file, file ∈ files_to_process eleven_files →
                  run file = Some (ok file))
    by (intros file _; apply fixed_analysis_returns).
  assert (Hne : eleven_files ≠ []) by (vm_compute; discriminate).
  split; [exact Hok|]. split; [exact Hne|].
  exact (proj2 (proj2 (batch_cap_is_notified figure run id eleven_files ok
                         Hok))
           Hne).
Defined.

(** C9, as the specification states it, fails: the truncation is not
    silent.  With 11 uploaded recordings that all have speech, the batch
    returns and its notification is not the plain success notice: it tells
    the user that one file was skipped. *)
Lemma silent_truncation_counterexample :
  length eleven_files = 11
  ∧ ∃ status bar_figs line_figs transcripts note,
      process_batch_raising figure
        (run_live_analysis unit unit_ffmpeg fixed_transcriber fixed_model
           figure id id)
        id eleven_files
      = Some (status, bar_figs, line_figs, transcripts, note)
      ∧ note ≠ processed_notice 10
      ∧ note
        = "✅ Successfully processed 10 file(s)! (Limited to first 10 files, 1 files skipped)".
Proof.
  split; [reflexivity|]. do 5 eexists. split.
  - apply process_batch_raising_note; [|by vm_compute].
    intros file _. apply fixed_analysis_returns.
  - split; by vm_compute.
Qed.

(** ** Doubles *)












Section DoublesProperties.

Variable emotion_model : string → list Doubles.raw_item.
Variable builtin_sum : list PrimFloat.float → PrimFloat.float.






End DoublesProperties.

(** ** The percentages, on doubles and over exact arithmetic *)




(** ** The mapper on doubles *)

